(** * The Backlog Wiki markup converter (src/utils/backlogWikiParser.ts)

    A shallow embedding of [parseBacklogWiki] and of its four stages
    ([parseTable], [parseCodeBlock], [parseInlineCode],
    [parseBasicMarkdown]) together with [escapeHtml], and the properties
    of the converter proved over that embedding.

    A JavaScript string is a sequence of UTF-16 code units; it is modelled
    as a list of numbers, one per code unit.  The regular expressions of
    the source carry no [u] flag, so they too work code unit by code unit. *)

From Stdlib Require Import List NArith ZArith Bool Arith Lia String Ascii.
Import ListNotations.

Set Implicit Arguments.

(* ================================================================= *)
(** ** JavaScript strings *)

Definition code_unit := N.
Definition jsstring := list code_unit.

(** An ASCII literal of the source as a JavaScript string. *)
Definition str (s : string) : jsstring :=
  List.map N_of_ascii (list_ascii_of_string s).

(** The double quote, which a template of the source writes inside
    attribute values. *)
Definition dq : jsstring := [34%N].

(** Line feed, the separator of [text.split('\n')] and [join('\n')]. *)
Definition LF : code_unit := 10%N.

Definition jsstring_eqb (a b : jsstring) : bool :=
  if list_eq_dec N.eq_dec a b then true else false.

Module JS.

(** ECMAScript WhiteSpace and LineTerminator code points: the set that
    [String.prototype.trim] strips. *)
Definition is_white_space (c : code_unit) : bool :=
  (N.eqb c 9 || N.eqb c 10 || N.eqb c 11 || N.eqb c 12 || N.eqb c 13
   || N.eqb c 32 || N.eqb c 160 || N.eqb c 5760
   || (N.leb 8192 c && N.leb c 8202)
   || N.eqb c 8232 || N.eqb c 8233 || N.eqb c 8239 || N.eqb c 8287
   || N.eqb c 12288 || N.eqb c 65279)%bool.

(** LineTerminator: what [.] of a regular expression refuses. *)
Definition is_line_terminator (c : code_unit) : bool :=
  (N.eqb c 10 || N.eqb c 13 || N.eqb c 8232 || N.eqb c 8233)%bool.

(** [\w] of a regular expression: [A-Za-z0-9_]. *)
Definition is_word (c : code_unit) : bool :=
  ((N.leb 65 c && N.leb c 90) || (N.leb 97 c && N.leb c 122)
   || (N.leb 48 c && N.leb c 57) || N.eqb c 95)%bool.

Fixpoint drop_while (p : code_unit -> bool) (s : jsstring) : jsstring :=
  match s with
  | [] => []
  | c :: s' => if p c then drop_while p s' else s
  end.

Fixpoint take_while (p : code_unit -> bool) (s : jsstring) : jsstring :=
  match s with
  | [] => []
  | c :: s' => if p c then c :: take_while p s' else []
  end.

Definition trimStart (s : jsstring) : jsstring := drop_while is_white_space s.
Definition trimEnd (s : jsstring) : jsstring :=
  rev (drop_while is_white_space (rev s)).

(** [s.trim()] *)
Definition trim (s : jsstring) : jsstring := trimEnd (trimStart s).

Fixpoint is_prefix (p s : jsstring) : bool :=
  match p, s with
  | [], _ => true
  | _ :: _, [] => false
  | a :: p', b :: s' => N.eqb a b && is_prefix p' s'
  end.

(** [s.startsWith(p)] and [s.endsWith(p)] *)
Definition startsWith (s p : jsstring) : bool := is_prefix p s.
Definition endsWith (s p : jsstring) : bool := is_prefix (rev p) (rev s).

(** [s.slice(start, stop)], negative indices counting from the end. *)
Definition slice (s : jsstring) (start stop : Z) : jsstring :=
  let len := Z.of_nat (List.length s) in
  let from := if (start <? 0)%Z then Z.max (len + start) 0 else Z.min start len in
  let to := if (stop <? 0)%Z then Z.max (len + stop) 0 else Z.min stop len in
  firstn (Z.to_nat (Z.max (to - from) 0)) (skipn (Z.to_nat from) s).

(** [s.substring(n)] for a non-negative [n]. *)
Definition substring (s : jsstring) (n : nat) : jsstring := skipn n s.

(** [s.split(sep)] for a non-empty separator: the pieces between the
    occurrences of [sep], found left to right without overlap.  [skip]
    counts the code units of an occurrence still to be passed over and
    [cur] is the piece being collected. *)
Fixpoint split_from (sep s : jsstring) (skip : nat) (cur : jsstring)
  : list jsstring :=
  match s with
  | [] => [cur]
  | c :: s' =>
      match skip with
      | S k => split_from sep s' k cur
      | O =>
          if is_prefix sep s
          then cur :: split_from sep s' (List.length sep - 1) []
          else split_from sep s' 0 (cur ++ [c])
      end
  end.

Definition split (s sep : jsstring) : list jsstring := split_from sep s 0 [].

(** [a.join(sep)] *)
Fixpoint join (a : list jsstring) (sep : jsstring) : jsstring :=
  match a with
  | [] => []
  | [x] => x
  | x :: rest => x ++ sep ++ join rest sep
  end.

End JS.

(* ================================================================= *)
(** ** Results of JavaScript code: a value, or a raised exception *)

Inductive js_error : Type :=
| TypeError.   (* a property read on [undefined] *)

Inductive outcome (A : Type) : Type :=
| Returned (a : A)
| Raised (e : js_error).

Arguments Returned {A} a.
Arguments Raised {A} e.

Definition bind {A B : Type} (m : outcome A) (k : A -> outcome B) : outcome B :=
  match m with
  | Returned a => k a
  | Raised e => Raised e
  end.

Notation "x <- m ;; k" := (bind m (fun x => k))
  (at level 61, m at next level, right associativity).

(* ================================================================= *)
(** ** The browser's DOM, as far as [escapeHtml] uses it

    [escapeHtml] creates a [div], assigns its [textContent] and reads its
    [innerHTML].  The three operations are modelled after the DOM and HTML
    standards: assigning [textContent] replaces the children of the element
    by one Text node (by none for the empty string), and [innerHTML]
    serialises the children, a Text node through the standard's
    "escaping a string" steps, which are four successive global
    replacements. *)

Module DOM.

Inductive node : Type :=
| Text (data : jsstring).

Record element : Type := mkElement {
  localName : jsstring;
  childNodes : list node
}.

(** [document.createElement(name)] *)
Definition createElement (name : jsstring) : element :=
  mkElement name [].

(** [e.textContent = value] *)
Definition set_textContent (e : element) (value : jsstring) : element :=
  mkElement (localName e)
            (match value with
             | [] => []
             | _ :: _ => [Text value]
             end).

(** Replace any occurrence of the code unit [c] by [by]. *)
Fixpoint replace_each (c : code_unit) (by_ : jsstring) (s : jsstring) : jsstring :=
  match s with
  | [] => []
  | x :: s' => (if N.eqb x c then by_ else [x]) ++ replace_each c by_ s'
  end.

(** Escaping a string, outside attribute mode. *)
Definition escape_string (s : jsstring) : jsstring :=
  let s1 := replace_each 38%N (str "&amp;") s in
  let s2 := replace_each 160%N (str "&nbsp;") s1 in
  let s3 := replace_each 60%N (str "&lt;") s2 in
  replace_each 62%N (str "&gt;") s3.

(** Elements whose text children are serialised as they are. *)
Definition is_raw_text_parent (name : jsstring) : bool :=
  existsb (jsstring_eqb name)
          [str "style"; str "script"; str "xmp"; str "iframe";
           str "noembed"; str "noframes"; str "plaintext"; str "noscript"].

Definition serialize_child (parent : jsstring) (n : node) : jsstring :=
  match n with
  | Text data => if is_raw_text_parent parent then data else escape_string data
  end.

(** [e.innerHTML] *)
Definition get_innerHTML (e : element) : jsstring :=
  List.concat (List.map (serialize_child (localName e)) (childNodes e)).

End DOM.

(** [escapeHtml] (source lines 175-179) *)
Definition escapeHtml (text : jsstring) : jsstring :=
  let div := DOM.createElement (str "div") in
  let div := DOM.set_textContent div text in
  DOM.get_innerHTML div.

(* ================================================================= *)
(** ** [String.prototype.replace] with a global regular expression *)

Section Replace.

(** The captures of a match. *)
Variable C : Type.

(** The pattern, tried at the head of a suffix of the subject: the
    captures and the number of code units matched.  Every pattern of the
    parser contains literal delimiters, so a match is never empty. *)
Variable exec : jsstring -> option (C * nat).

(** The replacement computed from the captures. *)
Variable replacer : C -> jsstring.

(** Scan left to right; after a match the search resumes behind it.
    [skip] counts the matched code units still to be passed over. *)
Fixpoint replace_from (s : jsstring) (skip : nat) : jsstring :=
  match s with
  | [] => []
  | c :: s' =>
      match skip with
      | S k => replace_from s' k
      | O =>
          match exec s with
          | Some (caps, len) => replacer caps ++ replace_from s' (len - 1)
          | None => c :: replace_from s' 0
          end
      end
  end.

Definition replace_all (s : jsstring) : jsstring := replace_from s 0.

(** Some position of [s] starts a match. *)
Fixpoint has_match (s : jsstring) : bool :=
  match s with
  | [] => false
  | _ :: s' =>
      match exec s with
      | Some _ => true
      | None => has_match s'
      end
  end.

End Replace.

Module Regex.

Definition strip_prefix (p s : jsstring) : option jsstring :=
  if JS.is_prefix p s then Some (skipn (List.length p) s) else None.

(** The shortest [body] with [s = body ++ pat ++ _]: what a lazy
    [[\s\S]*?] followed by the literal [pat] captures. *)
Fixpoint lazy_any_until (pat s : jsstring) : option jsstring :=
  if JS.is_prefix pat s then Some []
  else match s with
       | [] => None
       | c :: s' => option_map (cons c) (lazy_any_until pat s')
       end.

(** The same for a lazy [.*?], which stops at a line terminator. *)
Fixpoint lazy_dot_until (pat s : jsstring) : option jsstring :=
  if JS.is_prefix pat s then Some []
  else match s with
       | [] => None
       | c :: s' =>
           if JS.is_line_terminator c then None
           else option_map (cons c) (lazy_dot_until pat s')
       end.

(** [/\{code(?::(\w+))?\}([\s\S]*?)\{\/code\}/] at the head of [s].
    The optional group is tried first; [\w+] takes the longest run of
    word characters, and giving some back cannot help because [}] is not
    a word character.  Captures: the language, [None] when the group
    took no part, and the body. *)
Definition codeBlockPattern (s : jsstring)
  : option ((option jsstring * jsstring) * nat) :=
  match strip_prefix (str "{code") s with
  | None => None
  | Some r1 =>
      let with_language :=
        match strip_prefix (str ":") r1 with
        | None => None
        | Some r2 =>
            let w := JS.take_while JS.is_word r2 in
            match w with
            | [] => None
            | _ :: _ =>
                match strip_prefix (str "}") (skipn (List.length w) r2) with
                | None => None
                | Some r3 => Some (Some w, r3, 1 + List.length w)
                end
            end
        end in
      let opener :=
        match with_language with
        | Some o => Some o
        | None =>
            match strip_prefix (str "}") r1 with
            | None => None
            | Some r3 => Some (None, r3, 0)
            end
        end in
      match opener with
      | None => None
      | Some (language, r3, n) =>
          match lazy_any_until (str "{/code}") r3 with
          | None => None
          | Some code =>
              Some ((language, code), 5 + n + 1 + List.length code + 7)
          end
      end
  end.

(** [/&code\(([^)]+)\);/] at the head of [s]. *)
Definition inlineCodePattern (s : jsstring) : option (jsstring * nat) :=
  match strip_prefix (str "&code(") s with
  | None => None
  | Some r =>
      let code := JS.take_while (fun c => negb (N.eqb c 41)) r in
      match code with
      | [] => None
      | _ :: _ =>
          match strip_prefix (str ");") (skipn (List.length code) r) with
          | None => None
          | Some _ => Some (code, 6 + List.length code + 2)
          end
      end
  end.

(** [/\*\*(.*?)\*\*/] at the head of [s]. *)
Definition boldPattern (s : jsstring) : option (jsstring * nat) :=
  match strip_prefix (str "**") s with
  | None => None
  | Some r =>
      match lazy_dot_until (str "**") r with
      | None => None
      | Some inner => Some (inner, 2 + List.length inner + 2)
      end
  end.

End Regex.

(* ================================================================= *)
(** ** The table stage: [parseTable] (source lines 41-99) *)

(** The tags pushed onto [result]. *)
Definition TABLE_OPEN : jsstring :=
  str "<table class=" ++ dq ++ str "backlog-table" ++ dq ++ str ">".
Definition THEAD_OPEN : jsstring := str "<thead>".
Definition THEAD_CLOSE : jsstring := str "</thead>".
Definition TBODY_OPEN : jsstring := str "<tbody>".
Definition TBODY_CLOSE : jsstring := str "</tbody>".
Definition TABLE_CLOSE : jsstring := str "</table>".
Definition TR_OPEN : jsstring := str "<tr>".
Definition TR_CLOSE : jsstring := str "</tr>".

Definition th (cell : jsstring) : jsstring :=
  str "<th class=" ++ dq ++ str "backlog-th" ++ dq ++ str ">"
  ++ JS.trim cell ++ str "</th>".

Definition td (cell : jsstring) : jsstring :=
  str "<td class=" ++ dq ++ str "backlog-td" ++ dq ++ str ">"
  ++ JS.trim cell ++ str "</td>".

(** The two tests on the trimmed line, in the order of the source. *)
Definition is_header_row (line : jsstring) : bool :=
  JS.startsWith line (str "||") && JS.endsWith line (str "||").

Definition is_data_row (line : jsstring) : bool :=
  negb (is_header_row line)
  && (JS.startsWith line (str "|") && JS.endsWith line (str "|")).

(** The variables the loop updates. *)
Record table_state : Type := mkTable {
  inTable : bool;
  result : list jsstring
}.

(** [result.push(x1); ...; result.push(xn)] *)
Definition push (st : table_state) (xs : list jsstring) : table_state :=
  mkTable (inTable st) (result st ++ xs).

(** The body of the loop, on the trimmed line. *)
Definition table_body (line : jsstring) (st : table_state) : table_state :=
  if JS.startsWith line (str "||") && JS.endsWith line (str "||") then
    let st :=
      if negb (inTable st)
      then mkTable true (result st ++ [TABLE_OPEN; THEAD_OPEN])
      else st in
    let cells := JS.split (JS.slice line 2 (-2)) (str "||") in
    let st := push st [TR_OPEN] in
    let st := push st (List.map th cells) in
    push st [TR_CLOSE; THEAD_CLOSE; TBODY_OPEN]
  else if JS.startsWith line (str "|") && JS.endsWith line (str "|") then
    let st :=
      if negb (inTable st)
      then mkTable true (result st ++ [TABLE_OPEN; TBODY_OPEN])
      else st in
    let cells := JS.split (JS.slice line 1 (-1)) (str "|") in
    let st := push st [TR_OPEN] in
    let st := push st (List.map td cells) in
    push st [TR_CLOSE]
  else
    let st :=
      if inTable st
      then mkTable false (result st ++ [TBODY_CLOSE; TABLE_CLOSE])
      else st in
    push st [line].

(** [for (let i = 0; i < lines.length; i++)]: [n] iterations are left and
    [lines[i]] is read in each; reading past the end gives [undefined],
    on which [.trim()] raises. *)
Fixpoint table_loop (lines : list jsstring) (n i : nat) (st : table_state)
  : outcome table_state :=
  match n with
  | O => Returned st
  | S n' =>
      match nth_error lines i with
      | None => Raised TypeError
      | Some raw => table_loop lines n' (S i) (table_body (JS.trim raw) st)
      end
  end.

(** The closing tags pushed after the loop when a table is still open. *)
Definition close_at_end (st : table_state) : table_state :=
  if inTable st then push st [TBODY_CLOSE; TABLE_CLOSE] else st.

(** The array [result] when [parseTable] reaches its [return]. *)
Definition parseTable_result (text : jsstring) : outcome (list jsstring) :=
  let lines := JS.split text [LF] in
  st <- table_loop lines (List.length lines) 0 (mkTable false []) ;;
  Returned (result (close_at_end st)).

Definition parseTable (text : jsstring) : outcome jsstring :=
  r <- parseTable_result text ;;
  Returned (JS.join r [LF]).

(* ================================================================= *)
(** ** The code stages: [parseCodeBlock] and [parseInlineCode]
       (source lines 105-126) *)

(** [language || 'text'] *)
Definition language_or_text (language : option jsstring) : jsstring :=
  match language with
  | None | Some [] => str "text"
  | Some (c :: l) => c :: l
  end.

Definition code_block (lang escapedCode : jsstring) : jsstring :=
  str "<pre class=" ++ dq ++ str "backlog-code-block" ++ dq
  ++ str "><code class=" ++ dq ++ str "language-" ++ lang ++ dq ++ str ">"
  ++ escapedCode ++ str "</code></pre>".

(** The callback of [parseCodeBlock]. *)
Definition codeBlock_replacer (caps : option jsstring * jsstring) : jsstring :=
  let (language, code) := caps in
  let lang := language_or_text language in
  let escapedCode := escapeHtml (JS.trim code) in
  code_block lang escapedCode.

Definition parseCodeBlock (text : jsstring) : jsstring :=
  replace_all Regex.codeBlockPattern codeBlock_replacer text.

(** The callback of [parseInlineCode]. *)
Definition inlineCode_replacer (code : jsstring) : jsstring :=
  str "<code class=" ++ dq ++ str "backlog-inline-code" ++ dq ++ str ">"
  ++ escapeHtml code ++ str "</code>".

Definition parseInlineCode (text : jsstring) : jsstring :=
  replace_all Regex.inlineCodePattern inlineCode_replacer text.

(* ================================================================= *)
(** ** The last stage: [parseBasicMarkdown] (source lines 131-170) *)

(** The replacement string ['<strong>$1</strong>']. *)
Definition bold_replacer (inner : jsstring) : jsstring :=
  str "<strong>" ++ inner ++ str "</strong>".

Definition replace_bold (line : jsstring) : jsstring :=
  replace_all Regex.boldPattern bold_replacer line.

Definition heading (level : jsstring) (headingText : jsstring) : jsstring :=
  str "<h" ++ level ++ str " class=" ++ dq ++ str "backlog-h" ++ level ++ dq
  ++ str ">" ++ headingText ++ str "</h" ++ level ++ str ">".

(** U+2022, the bullet of a list line. *)
Definition BULLET : jsstring := [8226%N].

Definition list_item (listText : jsstring) : jsstring :=
  str "<p class=" ++ dq ++ str "backlog-list" ++ dq ++ str ">"
  ++ BULLET ++ str " " ++ listText ++ str "</p>".

Definition SPACER : jsstring :=
  str "<div class=" ++ dq ++ str "backlog-spacer" ++ dq ++ str "></div>".

Definition paragraph (body : jsstring) : jsstring :=
  str "<p class=" ++ dq ++ str "backlog-paragraph" ++ dq ++ str ">"
  ++ body ++ str "</p>".

Definition is_empty (s : jsstring) : bool :=
  match s with
  | [] => true
  | _ :: _ => false
  end.

(** The body of the loop over the lines. *)
Definition markdown_line (line : jsstring) : jsstring :=
  let processedLine := replace_bold line in
  if JS.startsWith line (str "# ") then
    heading (str "1") (JS.substring processedLine 2)
  else if JS.startsWith line (str "## ") then
    heading (str "2") (JS.substring processedLine 3)
  else if JS.startsWith line (str "### ") then
    heading (str "3") (JS.substring processedLine 4)
  else if JS.startsWith line (str "- ") then
    list_item (JS.substring processedLine 2)
  else if is_empty (JS.trim processedLine) then
    SPACER
  else if negb (JS.startsWith processedLine (str "<")) then
    paragraph processedLine
  else
    processedLine.

Definition parseBasicMarkdown (text : jsstring) : jsstring :=
  let lines := JS.split text [LF] in
  JS.join (List.map markdown_line lines) [LF].

(* ================================================================= *)
(** ** The converter: [parseBacklogWiki] (source lines 18-34) *)

Definition parseBacklogWiki (text : jsstring) : outcome jsstring :=
  html <- parseTable text ;;
  let html := parseCodeBlock html in
  let html := parseInlineCode html in
  let html := parseBasicMarkdown html in
  Returned html.

(** The guard both pages put before the converter
    ([formatContent] and [getPreviewHtml]: [if (!content) return '']). *)
Definition formatContent (content : jsstring) : outcome jsstring :=
  if is_empty content then Returned [] else parseBacklogWiki content.

(* ================================================================= *)
(** ** The template catalog: [getWikiTemplates] (source lines 184-230)

    Each template is written as the source writes it, code unit by code
    unit: the ASCII runs as literals, the line feeds of the template
    literal as [LF], the other code units by number. *)

Definition template_table : jsstring :=
  str "||" ++ [38917; 30446]%N ++ str "||" ++ [20516]%N ++ str "||" ++
  [35500; 26126]%N ++ str "||" ++ [LF] ++ str "|" ++ [38917; 30446]%N ++
  str "1|" ++ [20516]%N ++ str "1|" ++ [35500; 26126]%N ++ str "1|" ++
  [LF] ++ str "|" ++ [38917; 30446]%N ++ str "2|" ++ [20516]%N ++
  str "2|" ++ [35500; 26126]%N ++ str "2|" ++ [LF] ++ str "|" ++
  [38917; 30446]%N ++ str "3|" ++ [20516]%N ++ str "3|" ++
  [35500; 26126]%N ++ str "3|".

Definition template_codeBlock : jsstring :=
  str "{code:javascript}" ++ [LF] ++ str "function hello() {" ++ [LF] ++
  str "  console.log(" ++ dq ++ str "Hello, Backlog!" ++ dq ++ str ");" ++
  [LF] ++ str "}" ++ [LF] ++ str "{/code}".

Definition template_codeBlockWithLanguage : jsstring :=
  str "{code:java}" ++ [LF] ++ str "public class HelloWorld {" ++ [LF] ++
  str "    public static void main(String[] args) {" ++ [LF] ++
  str "        System.out.println(" ++ dq ++ str "Hello, World!" ++ dq ++
  str ");" ++ [LF] ++ str "    }" ++ [LF] ++ str "}" ++ [LF] ++
  str "{/code}".

Definition template_inlineCode : jsstring :=
  [12371; 12398; 38306; 25968; 12399]%N ++ str " &code(console.log()); " ++
  [12434; 20351; 29992; 12375; 12390; 12513; 12483; 12475; 12540; 12472;
   12434; 20986; 21147; 12375; 12414; 12377; 12290]%N.

Definition template_combined : jsstring :=
  str "# API" ++ [20181; 27096; 26360]%N ++ [LF] ++ [LF] ++ str "## " ++
  [12456; 12531; 12489; 12509; 12452; 12531; 12488; 19968; 35239]%N ++
  [LF] ++ [LF] ++ str "||" ++ [12513; 12477; 12483; 12489]%N ++ str "||" ++
  [12456; 12531; 12489; 12509; 12452; 12531; 12488]%N ++ str "||" ++
  [35500; 26126]%N ++ str "||" ++ [LF] ++ str "|GET|/api/users|" ++
  [12518; 12540; 12470; 12540; 19968; 35239; 21462; 24471]%N ++ str "|" ++
  [LF] ++ str "|POST|/api/users|" ++
  [12518; 12540; 12470; 12540; 20316; 25104]%N ++ str "|" ++ [LF] ++
  str "|PUT|/api/users/:id|" ++
  [12518; 12540; 12470; 12540; 26356; 26032]%N ++ str "|" ++ [LF] ++
  [LF] ++ str "## " ++
  [12469; 12531; 12503; 12523; 12467; 12540; 12489]%N ++ [LF] ++ [LF] ++
  str "{code:javascript}" ++ [LF] ++
  str "const response = await fetch('/api/users', {" ++ [LF] ++
  str "  method: 'GET'," ++ [LF] ++ str "  headers: {" ++ [LF] ++
  str "    'Content-Type': 'application/json'" ++ [LF] ++ str "  }" ++
  [LF] ++ str "});" ++ [LF] ++
  str "const users = await response.json();" ++ [LF] ++ str "{/code}" ++
  [LF] ++ [LF] ++ [23455; 35013; 26178; 12399]%N ++
  str " &code(try-catch); " ++
  [12434; 20351; 29992; 12375; 12390; 12456; 12521; 12540; 12495; 12531;
   12489; 12522; 12531; 12464; 12434; 34892; 12387; 12390; 12367; 12384;
   12373; 12356; 12290]%N.

(** The keys of the object [getWikiTemplates] returns. *)
Inductive templateType : Type :=
| key_table
| key_codeBlock
| key_codeBlockWithLanguage
| key_inlineCode
| key_combined.

(** [getWikiTemplates()[key]] *)
Definition getWikiTemplates (key : templateType) : jsstring :=
  match key with
  | key_table => template_table
  | key_codeBlock => template_codeBlock
  | key_codeBlockWithLanguage => template_codeBlockWithLanguage
  | key_inlineCode => template_inlineCode
  | key_combined => template_combined
  end.

(* ================================================================= *)
(** ** The editor page: [insertTemplate] and [getPreviewHtml]
       (ArticleEditor, lines 346-384 of its source) *)

(** [s[i] !== c]: past the end [s[i]] is [undefined], which differs from
    every code unit. *)
Definition index_differs (s : jsstring) (i : nat) (c : code_unit) : bool :=
  match nth_error s i with
  | Some x => negb (N.eqb x c)
  | None => true
  end.

(** [s.substring(a, b)]: both indices are clamped to the length and
    swapped when the first is the larger. *)
Definition substring_range (s : jsstring) (a b : nat) : jsstring :=
  let len := List.length s in
  let a := Nat.min a len in
  let b := Nat.min b len in
  firstn (Nat.max a b - Nat.min a b) (skipn (Nat.min a b) s).

(** The selection of the textarea element. *)
Record selection : Type := mkSelection {
  selectionStart : nat;
  selectionEnd : nat
}.

(** What [insertTemplate] passes to [setContent] and, for the cursor, to
    [setSelectionRange]. *)
Record insertion : Type := mkInsertion {
  newContent : jsstring;
  newPosition : nat
}.

(** [insertTemplate(templateType)], given the [content] of the page and
    the textarea that [document.querySelector] finds, if any; without a
    textarea nothing is set. *)
Definition insertTemplate (key : templateType) (content : jsstring)
           (textarea : option selection) : option insertion :=
  let templates := getWikiTemplates in
  let template := templates key in
  match textarea with
  | None => None
  | Some area =>
      let start := selectionStart area in
      let end_ := selectionEnd area in
      let currentContent := content in
      let prefix :=
        if (0 <? start) && index_differs currentContent (start - 1) LF
        then [LF; LF] else [] in
      let suffix :=
        if (end_ <? List.length currentContent)
           && index_differs currentContent end_ LF
        then [LF; LF] else [] in
      let newContent :=
        substring_range currentContent 0 start
        ++ prefix ++ template ++ suffix
        ++ JS.substring currentContent end_ in
      Some (mkInsertion newContent
              (start + List.length prefix + List.length template
               + List.length suffix))
  end.

(** [getPreviewHtml()], on the [content] of the page. *)
Definition getPreviewHtml (content : jsstring) : outcome jsstring :=
  if is_empty content then Returned [] else parseBacklogWiki content.

(* ================================================================= *)
(** ** The converter as a program

    The same functions once more, with what can go wrong at run time
    left in: a loop may fail to end, a method called on [undefined]
    raises, and [escapeHtml] works on the DOM nodes of the page.  Every
    loop takes fuel; a run that uses its fuel up has not returned. *)

Inductive completion (A : Type) : Type :=
| Normal (a : A)         (* the call returns *)
| Throw (e : js_error)   (* an exception leaves the call *)
| Diverge.               (* the call has not returned *)

Arguments Normal {A} a.
Arguments Throw {A} e.
Arguments Diverge {A}.

(** The DOM nodes created so far, an element being known by its index,
    and the nodes that are attached to the document. *)
Record world : Type := mkWorld {
  nodes : list DOM.element;
  page : list nat
}.

Definition prog (A : Type) : Type := world -> completion (A * world).

Definition ret {A : Type} (a : A) : prog A := fun w => Normal (a, w).

Definition throw {A : Type} (e : js_error) : prog A := fun _ => Throw e.

Definition diverge {A : Type} : prog A := fun _ => Diverge.

Definition and_then {A B : Type} (p : prog A) (k : A -> prog B) : prog B :=
  fun w =>
    match p w with
    | Normal (a, w') => k a w'
    | Throw e => Throw e
    | Diverge => Diverge
    end.

Notation "x <~ p ;; k" := (and_then p (fun x => k))
  (at level 61, p at next level, right associativity).

Fixpoint update_nth {A : Type} (l : list A) (n : nat) (x : A) : list A :=
  match l, n with
  | [], _ => []
  | _ :: l', O => x :: l'
  | y :: l', S n' => y :: update_nth l' n' x
  end.

(** [document.createElement(name)]: a new node, attached nowhere. *)
Definition document_createElement (name : jsstring) : prog nat :=
  fun w =>
    Normal (List.length (nodes w),
            mkWorld (nodes w ++ [DOM.createElement name]) (page w)).

(** [e.textContent = value] *)
Definition assign_textContent (e : nat) (value : jsstring) : prog unit :=
  fun w =>
    match nth_error (nodes w) e with
    | None => Throw TypeError
    | Some el =>
        Normal (tt, mkWorld (update_nth (nodes w) e (DOM.set_textContent el value))
                            (page w))
    end.

(** [e.innerHTML] *)
Definition read_innerHTML (e : nat) : prog jsstring :=
  fun w =>
    match nth_error (nodes w) e with
    | None => Throw TypeError
    | Some el => Normal (DOM.get_innerHTML el, w)
    end.

(** [escapeHtml] (source lines 175-179) *)
Definition escapeHtml_run (text : jsstring) : prog jsstring :=
  div <~ document_createElement (str "div") ;;
  _ <~ assign_textContent div text ;;
  read_innerHTML div.

Section RegExpReplace.

Variable C : Type.
Variable exec : jsstring -> option (C * nat).
Variable replacer : C -> prog jsstring.

(** The first position of [rest] where the pattern matches, the end of
    [rest] included: the code units in front of it, the captures and the
    length of the match. *)
Fixpoint first_match (rest : jsstring) : option (jsstring * C * nat) :=
  match exec rest with
  | Some (caps, len) => Some ([], caps, len)
  | None =>
      match rest with
      | [] => None
      | c :: rest' =>
          match first_match rest' with
          | Some (skipped, caps, len) => Some (c :: skipped, caps, len)
          | None => None
          end
      end
  end.

(** [RegExpBuiltinExec] of a global pattern on [s]: the search starts at
    [lastIndex] and fails when [lastIndex] is past the end; the result is
    the position of the match, its captures and its length. *)
Definition regexp_exec (s : jsstring) (lastIndex : nat)
  : option (nat * C * nat) :=
  if List.length s <? lastIndex then None
  else match first_match (skipn lastIndex s) with
       | None => None
       | Some (skipped, caps, len) =>
           Some (lastIndex + List.length skipped, caps, len)
       end.

(** The loop of [String.prototype.replace] that gathers the matches:
    [lastIndex] moves behind each match, and one code unit further when
    the match is empty. *)
Fixpoint collect_matches (fuel : nat) (s : jsstring) (lastIndex : nat)
  : prog (list (nat * C * nat)) :=
  match fuel with
  | O => diverge
  | S fuel' =>
      match regexp_exec s lastIndex with
      | None => ret []
      | Some (position, caps, len) =>
          let lastIndex' :=
            if len =? 0 then position + 1 else position + len in
          results <~ collect_matches fuel' s lastIndex' ;;
          ret ((position, caps, len) :: results)
      end
  end.

(** The second loop: the replacer is called for each match in order and
    the result is put together from the pieces between the matches. *)
Fixpoint substitute (s : jsstring) (results : list (nat * C * nat))
         (nextSourcePosition : nat) (accumulated : jsstring) : prog jsstring :=
  match results with
  | [] => ret (accumulated ++ JS.substring s nextSourcePosition)
  | (position, caps, len) :: results' =>
      replacement <~ replacer caps ;;
      if nextSourcePosition <=? position
      then substitute s results' (position + len)
             (accumulated
              ++ substring_range s nextSourcePosition position
              ++ replacement)
      else substitute s results' nextSourcePosition accumulated
  end.

(** [s.replace(pattern, replacer)] for a global pattern. *)
Definition regexp_replace (fuel : nat) (s : jsstring) : prog jsstring :=
  results <~ collect_matches fuel s 0 ;;
  substitute s results 0 [].

End RegExpReplace.

(** The loop of [parseTable]: [for (let i = 0; i < lines.length; i++)]. *)
Fixpoint parseTable_for (fuel : nat) (lines : list jsstring) (i : nat)
         (st : table_state) : prog table_state :=
  match fuel with
  | O => diverge
  | S fuel' =>
      if i <? List.length lines then
        match nth_error lines i with
        | None => throw TypeError     (* [undefined.trim()] *)
        | Some raw =>
            parseTable_for fuel' lines (S i) (table_body (JS.trim raw) st)
        end
      else ret st
  end.

Definition parseTable_run (fuel : nat) (text : jsstring) : prog jsstring :=
  let lines := JS.split text [LF] in
  st <~ parseTable_for fuel lines 0 (mkTable false []) ;;
  ret (JS.join (result (close_at_end st)) [LF]).

(** The callback of [parseCodeBlock]. *)
Definition codeBlock_callback (caps : option jsstring * jsstring)
  : prog jsstring :=
  let (language, code) := caps in
  let lang := language_or_text language in
  escapedCode <~ escapeHtml_run (JS.trim code) ;;
  ret (code_block lang escapedCode).

Definition parseCodeBlock_run (fuel : nat) (text : jsstring) : prog jsstring :=
  regexp_replace Regex.codeBlockPattern codeBlock_callback fuel text.

(** The callback of [parseInlineCode]. *)
Definition inlineCode_callback (code : jsstring) : prog jsstring :=
  escaped <~ escapeHtml_run code ;;
  ret (str "<code class=" ++ dq ++ str "backlog-inline-code" ++ dq ++ str ">"
       ++ escaped ++ str "</code>").

Definition parseInlineCode_run (fuel : nat) (text : jsstring) : prog jsstring :=
  regexp_replace Regex.inlineCodePattern inlineCode_callback fuel text.

(** The body of the loop of [parseBasicMarkdown]. *)
Definition markdown_line_run (fuel : nat) (line : jsstring) : prog jsstring :=
  processedLine <~ regexp_replace Regex.boldPattern
                     (fun inner => ret (bold_replacer inner)) fuel line ;;
  if JS.startsWith line (str "# ") then
    ret (heading (str "1") (JS.substring processedLine 2))
  else if JS.startsWith line (str "## ") then
    ret (heading (str "2") (JS.substring processedLine 3))
  else if JS.startsWith line (str "### ") then
    ret (heading (str "3") (JS.substring processedLine 4))
  else if JS.startsWith line (str "- ") then
    ret (list_item (JS.substring processedLine 2))
  else if is_empty (JS.trim processedLine) then
    ret SPACER
  else if negb (JS.startsWith processedLine (str "<")) then
    ret (paragraph processedLine)
  else
    ret processedLine.

(** [for (const line of lines)]: the iterator hands out [lines[i]] until
    [i] reaches the length.  [inner] is the fuel of the loops inside. *)
Fixpoint parseBasicMarkdown_for (fuel inner : nat) (lines : list jsstring)
         (i : nat) (result : list jsstring) : prog (list jsstring) :=
  match fuel with
  | O => diverge
  | S fuel' =>
      match nth_error lines i with
      | None => ret result
      | Some line =>
          processedLine <~ markdown_line_run inner line ;;
          parseBasicMarkdown_for fuel' inner lines (S i)
            (result ++ [processedLine])
      end
  end.

Definition parseBasicMarkdown_run (fuel : nat) (text : jsstring)
  : prog jsstring :=
  let lines := JS.split text [LF] in
  result <~ parseBasicMarkdown_for fuel fuel lines 0 [] ;;
  ret (JS.join result [LF]).

(** [parseBacklogWiki] (source lines 18-34) *)
Definition parseBacklogWiki_run (fuel : nat) (text : jsstring)
  : prog jsstring :=
  html <~ parseTable_run fuel text ;;
  html <~ parseCodeBlock_run fuel html ;;
  html <~ parseInlineCode_run fuel html ;;
  parseBasicMarkdown_run fuel html.

(* ================================================================= *)
(** ** Vocabulary of the statements *)

(** *** Lines and the loop of the table stage *)

(** The lines of the text as the loop sees them. *)
Definition trimmed_lines (text : jsstring) : list jsstring :=
  List.map JS.trim (JS.split text [LF]).

(** Every line of the text, trimmed as the loop trims it, satisfies [p]. *)
Definition all_lines (p : jsstring -> bool) (text : jsstring) : bool :=
  forallb (fun raw => p (JS.trim raw)) (JS.split text [LF]).


(** The loop as a left fold over the lines. *)
Definition table_run (lines : list jsstring) (st : table_state) : table_state :=
  fold_left (fun st raw => table_body (JS.trim raw) st) lines st.

(** The cells of a header row and of a data row, and what the loop
    pushes for each once the table is open. *)
Definition header_cells (line : jsstring) : list jsstring :=
  JS.split (JS.slice line 2 (-2)) (str "||").

Definition data_cells (line : jsstring) : list jsstring :=
  JS.split (JS.slice line 1 (-1)) (str "|").

Definition header_block (line : jsstring) : list jsstring :=
  TR_OPEN :: List.map th (header_cells line)
  ++ [TR_CLOSE; THEAD_CLOSE; TBODY_OPEN].

Definition data_block (line : jsstring) : list jsstring :=
  TR_OPEN :: List.map td (data_cells line) ++ [TR_CLOSE].

(** A line is a table row when either test of the loop body holds. *)
Definition is_row (line : jsstring) : bool :=
  is_header_row line || is_data_row line.

(** The line is neither a header row nor a data row. *)
Definition not_row (line : jsstring) : bool := negb (is_row line).

(** The block a row contributes once its table is open. *)
Definition row_block (line : jsstring) : list jsstring :=
  if is_header_row line then header_block line else data_block line.

(** How many elements of the array [l] are the string [x]. *)
Definition count (x : jsstring) (l : list jsstring) : nat :=
  count_occ (list_eq_dec N.eq_dec) l x.

(** *** White space and line feeds *)

(** Neither the first nor the last code unit is white space. *)
Definition no_outer_space (s : jsstring) : bool :=
  match s with
  | [] => true
  | c :: _ => negb (JS.is_white_space c)
  end
  && match rev s with
     | [] => true
     | c :: _ => negb (JS.is_white_space c)
     end.

Definition LF_free (s : jsstring) : bool :=
  forallb (fun c => negb (N.eqb LF c)) s.

(** *** Escaping *)

(** What the serialiser writes for one code unit of a Text node. *)
Definition entity (c : code_unit) : jsstring :=
  if N.eqb c 38 then str "&amp;"
  else if N.eqb c 160 then str "&nbsp;"
  else if N.eqb c 60 then str "&lt;"
  else if N.eqb c 62 then str "&gt;"
  else [c].

(** The escaping as the specification words it: [&], [<], [>] and the
    two quote characters replaced by their entities. *)
Definition spec_entity (c : code_unit) : jsstring :=
  if N.eqb c 38 then str "&amp;"
  else if N.eqb c 60 then str "&lt;"
  else if N.eqb c 62 then str "&gt;"
  else if N.eqb c 34 then str "&quot;"
  else if N.eqb c 39 then str "&#39;"
  else [c].

Definition spec_escapeHtml (text : jsstring) : jsstring :=
  flat_map spec_entity text.

(** *** Matches and fences *)

(** No position of [pre] starts a match in [pre ++ rest]. *)
Fixpoint unmatched_prefix {C : Type} (exec : jsstring -> option (C * nat))
         (pre rest : jsstring) : bool :=
  match pre with
  | [] => true
  | _ :: p =>
      match exec (pre ++ rest) with
      | Some _ => false
      | None => unmatched_prefix exec p rest
      end
  end.

(** In [body ++ pat ++ rest] the delimiter [pat] starts at no position
    of [body]: [body] is what a non-greedy group in front of [pat]
    captures. *)
Fixpoint shortest_body (pat body rest : jsstring) : bool :=
  match body with
  | [] => true
  | _ :: b =>
      negb (JS.is_prefix pat (body ++ pat ++ rest))
      && shortest_body pat b rest
  end.

(** The fence [{code}body{/code}] or [{code:lang}body{/code}]. *)
Definition language_part (language : option jsstring) : jsstring :=
  match language with
  | Some l => str ":" ++ l
  | None => []
  end.

Definition fence (language : option jsstring) (body : jsstring) : jsstring :=
  str "{code" ++ language_part language ++ str "}" ++ body ++ str "{/code}".

(** The language of a fence is absent or a non-empty run of word
    characters. *)
Definition is_language (language : option jsstring) : bool :=
  match language with
  | None => true
  | Some l => negb (is_empty l) && forallb JS.is_word l
  end.

(** The language class of the emitted block. *)
Definition language_class (language : option jsstring) : jsstring :=
  match language with
  | Some l => l
  | None => str "text"
  end.

(** *** Text without markup *)

(** A line, trimmed, in which the converter recognises no construct: no
    table row, no bold span, no heading and no list item. *)
Definition plain_line (line : jsstring) : bool :=
  not_row line
  && negb (has_match Regex.boldPattern line)
  && negb (JS.startsWith line (str "# "))
  && negb (JS.startsWith line (str "## "))
  && negb (JS.startsWith line (str "### "))
  && negb (JS.startsWith line (str "- ")).

(** A text in which the converter recognises no markup construct.  The
    lines are judged trimmed, as every stage sees them, and the two code
    patterns on the text of the trimmed lines. *)
Definition no_markup (text : jsstring) : bool :=
  forallb plain_line (trimmed_lines text)
  && negb (has_match Regex.codeBlockPattern (JS.join (trimmed_lines text) [LF]))
  && negb (has_match Regex.inlineCodePattern (JS.join (trimmed_lines text) [LF])).

(** The output for a text without markup as the specification words it:
    a blank line replaced by the spacer, any other line wrapped in a
    paragraph tag, nothing else changed. *)
Definition spec_plain_line (line : jsstring) : jsstring :=
  if is_empty (JS.trim line) then SPACER else paragraph line.

Definition spec_plain_output (text : jsstring) : jsstring :=
  JS.join (List.map spec_plain_line (JS.split text [LF])) [LF].

(** What the converter makes of a line of a text without markup. *)
Definition plain_render (line : jsstring) : jsstring :=
  let t := JS.trim line in
  if is_empty t then SPACER
  else if JS.startsWith t (str "<") then t
  else paragraph t.

(** *** Inputs of the examples *)

(** The apostrophe. *)
Definition sq : jsstring := [39%N].




(** A line of prose behind a blank. *)
Definition indented_line : jsstring := str " a".

(** The inputs of the worked examples. *)
Definition bold_text : jsstring := str "**bold** text".
Definition js_fence : jsstring := str "{code:js}x=1{/code}".

Definition plain_fence : jsstring := str "{code}a<b{/code}".

(** A fence whose body has two lines. *)
Definition two_line_fence : jsstring :=
  str "{code}" ++ [LF] ++ str "a" ++ [LF] ++ str "b" ++ [LF] ++ str "{/code}".

(** Prose that starts with the less-than sign. *)
Definition heart_line : jsstring := str "<3 wikis".

(** Three lines of prose: an indented one, a blank one, one that starts
    with the less-than sign. *)
Definition prose : jsstring :=
  str "  two  words " ++ [LF] ++ str "   " ++ [LF] ++ heart_line.

(** *** Vocabulary of the further properties *)

(** [s.includes(pat)]: [pat] starts at some position of [s]. *)
Fixpoint includes (s pat : jsstring) : bool :=
  JS.is_prefix pat s
  || match s with
     | [] => false
     | _ :: s' => includes s' pat
     end.

(** No code unit of [s] is [c]. *)
Definition free_of (c : code_unit) (s : jsstring) : bool :=
  forallb (fun x => negb (N.eqb x c)) s.

(** The vertical bar and the right parenthesis. *)
Definition BAR : code_unit := 124%N.
Definition RPAREN : code_unit := 41%N.

(** The inline span [&code(body);]. *)
Definition inline_span (code : jsstring) : jsstring :=
  str "&code(" ++ code ++ str ");".

(** The body of an inline span: not empty and without [)]. *)
Definition is_inline_body (code : jsstring) : bool :=
  negb (is_empty code) && free_of RPAREN code.

(** The bold span [**inner**]. *)
Definition bold_span (inner : jsstring) : jsstring :=
  str "**" ++ inner ++ str "**".

(** No code unit of [s] is a line terminator. *)
Definition on_one_line (s : jsstring) : bool :=
  forallb (fun c => negb (JS.is_line_terminator c)) s.

(** The header row and the data row written from a list of cells. *)
Definition header_row (cells : list jsstring) : jsstring :=
  str "||" ++ JS.join cells (str "||") ++ str "||".

Definition data_row (cells : list jsstring) : jsstring :=
  str "|" ++ JS.join cells (str "|") ++ str "|".


(** Every ampersand of [s] is followed by a code unit, and not by the
    letter [c]. *)
Fixpoint amp_guarded (s : jsstring) : bool :=
  match s with
  | [] => true
  | x :: s' =>
      (if N.eqb x 38
       then match s' with
            | [] => false
            | d :: _ => negb (N.eqb d 99)
            end
       else true)
      && amp_guarded s'
  end.

(** The block the code-block stage emits for the fence of [language] and
    [code]. *)
Definition emitted_block (language : option jsstring) (code : jsstring)
  : jsstring :=
  code_block (language_class language) (escapeHtml (JS.trim code)).

(** A fence whose body is a bold span. *)
Definition bold_fence : jsstring := str "{code}**a**{/code}".

(** An inline span written around a fence. *)
Definition span_around_fence : jsstring := str "&code({code}x{/code});".

(** [w'] is [w] with new nodes only: the page and the nodes that [w]
    holds are as they were. *)
Definition extends (w w' : world) : Prop :=
  page w' = page w
  /\ firstn (List.length (nodes w)) (nodes w') = nodes w.

(** From [w] the program returns [a], and the world it leaves extends
    [w]. *)
Definition runs_to {A : Type} (p : prog A) (w : world) (a : A) : Prop :=
  exists w', p w = Normal (a, w') /\ extends w w'.

(** A page with one paragraph attached. *)
Definition page_with_paragraph : world :=
  mkWorld [DOM.set_textContent (DOM.createElement (str "p")) (str "x")] [0].

(* ================================================================= *)
(** ** Lists of code units *)

Lemma is_prefix_app (p rest : jsstring) : JS.is_prefix p (p ++ rest) = true.
Proof.
  induction p as [|a p IH]; simpl; [reflexivity|].
  now rewrite N.eqb_refl, IH.
Qed.

Lemma is_prefix_spec (p s : jsstring) :
  JS.is_prefix p s = true -> s = p ++ skipn (List.length p) s.
Proof.
  revert s; induction p as [|a p IH]; intros s H; simpl in *; [reflexivity|].
  destruct s as [|b s]; [discriminate|].
  apply andb_true_iff in H as [Hab Hp].
  apply N.eqb_eq in Hab; subst b.
  simpl. f_equal. now apply IH.
Qed.

Lemma strip_prefix_spec (p s r : jsstring) :
  Regex.strip_prefix p s = Some r -> s = p ++ r.
Proof.
  unfold Regex.strip_prefix.
  destruct (JS.is_prefix p s) eqn:E; [|discriminate].
  intros [= <-]. now apply is_prefix_spec.
Qed.

Lemma take_while_drop (p : code_unit -> bool) (s : jsstring) :
  s = JS.take_while p s ++ skipn (List.length (JS.take_while p s)) s.
Proof.
  induction s as [|c s IH]; simpl; [reflexivity|].
  destruct (p c); simpl; [now f_equal|reflexivity].
Qed.

Lemma take_while_all (p : code_unit -> bool) (s : jsstring) :
  forallb p (JS.take_while p s) = true.
Proof.
  induction s as [|c s IH]; simpl; [reflexivity|].
  destruct (p c) eqn:E; simpl; [now rewrite E|reflexivity].
Qed.

(* ================================================================= *)
(** ** The loop of the table stage *)

Lemma table_loop_run (lines pre : list jsstring) (st : table_state) :
  table_loop (pre ++ lines) (List.length lines) (List.length pre) st
  = Returned (table_run lines st).
Proof.
  revert pre st; induction lines as [|l lines IH]; intros pre st; simpl.
  - reflexivity.
  - rewrite nth_error_app2 by lia. rewrite Nat.sub_diag. simpl.
    specialize (IH (pre ++ [l]) (table_body (JS.trim l) st)).
    rewrite <- app_assoc, length_app in IH. simpl in IH.
    rewrite Nat.add_1_r in IH. exact IH.
Qed.

Lemma parseTable_result_run (text : jsstring) :
  parseTable_result text
  = Returned (result (close_at_end (table_run (JS.split text [LF]) (mkTable false [])))).
Proof.
  unfold parseTable_result.
  pose proof (table_loop_run (JS.split text [LF]) [] (mkTable false [])) as H.
  cbn [app List.length] in H. rewrite H. reflexivity.
Qed.


Lemma table_body_header (line : jsstring) (st : table_state) :
  is_header_row line = true ->
  table_body line st
  = mkTable true
      (result st
       ++ (if inTable st then [] else [TABLE_OPEN; THEAD_OPEN])
       ++ header_block line).
Proof.
  unfold is_header_row, table_body. intros ->.
  unfold push, header_block, header_cells.
  destruct st as [[|] r]; simpl inTable; simpl result; cbv iota; simpl negb;
    cbv iota; simpl inTable; simpl result;
    f_equal; repeat rewrite <- app_assoc; reflexivity.
Qed.

Lemma table_body_data (line : jsstring) (st : table_state) :
  is_data_row line = true ->
  table_body line st
  = mkTable true
      (result st
       ++ (if inTable st then [] else [TABLE_OPEN; TBODY_OPEN])
       ++ data_block line).
Proof.
  unfold is_data_row, is_header_row, table_body. intros H.
  apply andb_true_iff in H as [H1 H2].
  apply negb_true_iff in H1. rewrite H1, H2.
  unfold push, data_block, data_cells.
  destruct st as [[|] r]; simpl inTable; simpl result; cbv iota; simpl negb;
    cbv iota; simpl inTable; simpl result;
    f_equal; repeat rewrite <- app_assoc; reflexivity.
Qed.

Lemma table_body_other (line : jsstring) (st : table_state) :
  is_row line = false ->
  table_body line st
  = mkTable false
      (result st
       ++ (if inTable st then [TBODY_CLOSE; TABLE_CLOSE] else [])
       ++ [line]).
Proof.
  unfold is_row, is_data_row, is_header_row, table_body. intros H.
  apply orb_false_iff in H as [H1 H2]. rewrite H1 in *. cbn [negb andb] in H2.
  rewrite H2. unfold push.
  destruct st as [[|] r]; simpl inTable; simpl result; cbv iota;
    simpl inTable; simpl result; f_equal;
    repeat rewrite <- app_assoc; reflexivity.
Qed.

(* ================================================================= *)
(** ** [trim] *)

Lemma drop_while_head (p : code_unit -> bool) (s : jsstring) :
  match JS.drop_while p s with
  | [] => True
  | c :: _ => p c = false
  end.
Proof.
  induction s as [|c s IH]; simpl; [exact I|].
  destruct (p c) eqn:E; [exact IH|exact E].
Qed.

Lemma drop_while_fixed (p : code_unit -> bool) (s : jsstring) :
  match s with
  | [] => True
  | c :: _ => p c = false
  end ->
  JS.drop_while p s = s.
Proof.
  destruct s as [|c s]; simpl; [reflexivity|]. now intros ->.
Qed.

Lemma drop_while_keeps_last (p : code_unit -> bool) (s : jsstring) (c : code_unit) :
  p c = false -> exists x, JS.drop_while p (s ++ [c]) = x ++ [c].
Proof.
  intros Hc. induction s as [|d s IH]; simpl.
  - rewrite Hc. now exists [].
  - destruct (p d); [exact IH|]. now exists (d :: s).
Qed.

Lemma trim_fixed (s : jsstring) : no_outer_space s = true -> JS.trim s = s.
Proof.
  unfold no_outer_space, JS.trim, JS.trimEnd, JS.trimStart. intros H.
  apply andb_true_iff in H as [H1 H2].
  rewrite (drop_while_fixed JS.is_white_space s).
  - rewrite (drop_while_fixed JS.is_white_space (rev s)).
    + apply rev_involutive.
    + destruct (rev s); [exact I|]. now apply negb_true_iff.
  - destruct s; [exact I|]. now apply negb_true_iff.
Qed.

Lemma trim_no_outer_space (s : jsstring) : no_outer_space (JS.trim s) = true.
Proof.
  unfold no_outer_space, JS.trim, JS.trimEnd, JS.trimStart.
  rewrite rev_involutive.
  pose proof (drop_while_head JS.is_white_space s) as Ha.
  destruct (JS.drop_while JS.is_white_space s) as [|c a]; [reflexivity|].
  simpl rev.
  destruct (drop_while_keeps_last JS.is_white_space (rev a) c Ha) as [x Hx].
  rewrite Hx, rev_app_distr. simpl. rewrite Ha. simpl.
  rewrite <- Hx.
  pose proof (drop_while_head JS.is_white_space (rev a ++ [c])) as Hb.
  destruct (JS.drop_while JS.is_white_space (rev a ++ [c])); [reflexivity|].
  now rewrite Hb.
Qed.

Lemma trim_idempotent (s : jsstring) : JS.trim (JS.trim s) = JS.trim s.
Proof. apply trim_fixed, trim_no_outer_space. Qed.

(* ================================================================= *)
(** ** [split] and [join] on the line feed *)

Lemma split_from_nonempty (sep s : jsstring) (skip : nat) (cur : jsstring) :
  JS.split_from sep s skip cur <> [].
Proof.
  revert skip cur; induction s as [|c s IH]; intros skip cur; simpl.
  - discriminate.
  - destruct skip; [|apply IH].
    destruct (JS.is_prefix sep (c :: s)); [discriminate|apply IH].
Qed.

Lemma split_nonempty (s sep : jsstring) : JS.split s sep <> [].
Proof. apply split_from_nonempty. Qed.

(** On a single code unit the separator test reads one code unit. *)
Lemma split_from_LF_cons (c : code_unit) (s cur : jsstring) :
  JS.split_from [LF] (c :: s) 0 cur
  = if N.eqb LF c then cur :: JS.split_from [LF] s 0 []
    else JS.split_from [LF] s 0 (cur ++ [c]).
Proof.
  cbn [JS.split_from JS.is_prefix List.length Nat.sub].
  rewrite andb_true_r. reflexivity.
Qed.

Lemma split_from_LF_free (s cur : jsstring) :
  LF_free cur = true ->
  forallb LF_free (JS.split_from [LF] s 0 cur) = true.
Proof.
  revert cur; induction s as [|c s IH]; intros cur Hcur.
  - simpl. now rewrite Hcur.
  - rewrite split_from_LF_cons. destruct (N.eqb LF c) eqn:E.
    + simpl. rewrite Hcur. now apply IH.
    + apply IH. unfold LF_free in *. rewrite forallb_app.
      apply andb_true_iff. split; [exact Hcur|].
      cbn [forallb]. now rewrite E.
Qed.

Lemma split_LF_free (s : jsstring) :
  forallb LF_free (JS.split s [LF]) = true.
Proof. now apply split_from_LF_free. Qed.

Lemma join_cons (x : jsstring) (rest : list jsstring) (sep : jsstring) :
  rest <> [] -> JS.join (x :: rest) sep = x ++ sep ++ JS.join rest sep.
Proof. destruct rest; [congruence|reflexivity]. Qed.


Lemma join_split_from (s cur : jsstring) :
  JS.join (JS.split_from [LF] s 0 cur) [LF] = cur ++ s.
Proof.
  revert cur; induction s as [|c s IH]; intros cur.
  - simpl. now rewrite app_nil_r.
  - rewrite split_from_LF_cons. destruct (N.eqb LF c) eqn:E.
    + apply N.eqb_eq in E; subst c.
      rewrite join_cons by apply split_from_nonempty.
      now rewrite IH.
    + rewrite IH. now rewrite <- app_assoc.
Qed.

(** Joining the lines of a text gives the text back. *)
Lemma join_split (s : jsstring) : JS.join (JS.split s [LF]) [LF] = s.
Proof. apply (join_split_from s []). Qed.

Lemma split_from_LF_free_prefix (l rest cur : jsstring) :
  LF_free l = true ->
  JS.split_from [LF] (l ++ rest) 0 cur = JS.split_from [LF] rest 0 (cur ++ l).
Proof.
  revert cur; induction l as [|c l IH]; intros cur H.
  - now rewrite app_nil_r.
  - change (LF_free (c :: l)) with (negb (N.eqb LF c) && LF_free l) in H.
    apply andb_true_iff in H as [Hc Hl].
    apply negb_true_iff in Hc.
    change ((c :: l) ++ rest) with (c :: l ++ rest).
    rewrite split_from_LF_cons, Hc, IH by assumption.
    now rewrite <- app_assoc.
Qed.

(** Splitting the join of line-feed-free lines gives the lines back. *)
Lemma split_join (ls : list jsstring) :
  ls <> [] -> forallb LF_free ls = true ->
  JS.split (JS.join ls [LF]) [LF] = ls.
Proof.
  unfold JS.split.
  induction ls as [|l ls IH]; intros Hne Hfree; [congruence|].
  simpl in Hfree. apply andb_true_iff in Hfree as [Hl Hls].
  destruct ls as [|m ls].
  - simpl JS.join.
    pose proof (split_from_LF_free_prefix l [] [] Hl) as H.
    rewrite app_nil_r in H. rewrite H. reflexivity.
  - rewrite join_cons by discriminate.
    rewrite split_from_LF_free_prefix by assumption.
    change ([LF] ++ JS.join (m :: ls) [LF]) with (LF :: JS.join (m :: ls) [LF]).
    rewrite split_from_LF_cons, N.eqb_refl.
    rewrite IH by (assumption || discriminate). reflexivity.
Qed.

(* ================================================================= *)
(** ** Runs of table rows *)

Lemma rows_run (lines : list jsstring) (st : table_state) :
  forallb (fun raw => is_row (JS.trim raw)) lines = true ->
  inTable st = true ->
  table_run lines st
  = mkTable true (result st ++ flat_map row_block (List.map JS.trim lines)).
Proof.
  revert st; induction lines as [|l lines IH]; intros st Hall Hin.
  - simpl. rewrite app_nil_r. destruct st; simpl in *; now subst.
  - cbn [forallb] in Hall. apply andb_true_iff in Hall as [Hl Hrest].
    cbn [table_run fold_left List.map flat_map].
    fold (table_run lines (table_body (JS.trim l) st)).
    unfold is_row in Hl. unfold row_block at 1.
    destruct (is_header_row (JS.trim l)) eqn:Eh.
    + rewrite table_body_header by assumption. rewrite Hin.
      rewrite IH by (assumption || reflexivity).
      cbn [result app]. now rewrite <- app_assoc.
    + cbn [orb] in Hl. rewrite table_body_data by assumption. rewrite Hin.
      rewrite IH by (assumption || reflexivity).
      cbn [result app]. now rewrite <- app_assoc.
Qed.

Lemma flat_map_row_block_headers (ls : list jsstring) :
  forallb is_header_row ls = true ->
  flat_map row_block ls = flat_map header_block ls.
Proof.
  induction ls as [|l ls IH]; intros H; [reflexivity|].
  cbn [forallb] in H. apply andb_true_iff in H as [Hl Hls].
  cbn [flat_map]. unfold row_block at 1. now rewrite Hl, IH.
Qed.


Lemma forallb_map_trim (p : jsstring -> bool) (ls : list jsstring) :
  forallb (fun raw => p (JS.trim raw)) ls = forallb p (List.map JS.trim ls).
Proof. induction ls as [|l ls IH]; simpl; [reflexivity|now rewrite IH]. Qed.

Lemma forallb_weaken (p q : jsstring -> bool) (ls : list jsstring) :
  (forall x, p x = true -> q x = true) ->
  forallb p ls = true -> forallb q ls = true.
Proof.
  intros Hpq H. rewrite forallb_forall in *. auto.
Qed.

(** The array [result] for a text all of whose lines are header rows. *)
Lemma header_only_result (text : jsstring) :
  all_lines is_header_row text = true ->
  parseTable_result text
  = Returned ([TABLE_OPEN; THEAD_OPEN]
              ++ flat_map header_block (trimmed_lines text)
              ++ [TBODY_CLOSE; TABLE_CLOSE]).
Proof.
  unfold all_lines, trimmed_lines. intros H.
  rewrite parseTable_result_run.
  destruct (JS.split text [LF]) as [|l ls] eqn:E;
    [now apply split_nonempty in E|].
  cbn [forallb] in H. apply andb_true_iff in H as [Hl Hls].
  cbn [table_run fold_left].
  fold (table_run ls (table_body (JS.trim l) (mkTable false []))).
  rewrite table_body_header by assumption.
  rewrite rows_run;
    [|apply (forallb_weaken _ _ _ (fun x Hx => orb_true_intro _ _ (or_introl Hx)) Hls)
     |reflexivity].
  rewrite forallb_map_trim in Hls.
  rewrite flat_map_row_block_headers by assumption.
  cbn [inTable result close_at_end push List.map flat_map app].
  now rewrite <- !app_assoc.
Qed.


(* ================================================================= *)
(** ** Counting tags in [result] *)



Lemma count_cons_eq (x : jsstring) (l : list jsstring) :
  count x (x :: l) = S (count x l).
Proof. unfold count. now apply count_occ_cons_eq. Qed.









(* ================================================================= *)
(** ** Header rows *)






(* ================================================================= *)
(** ** Data rows *)



(* ================================================================= *)
(** ** End of input inside a table *)




(* ================================================================= *)
(** ** Lines that are no table rows *)

Lemma other_run (lines : list jsstring) (st : table_state) :
  forallb (fun raw => not_row (JS.trim raw)) lines = true ->
  inTable st = false ->
  table_run lines st = mkTable false (result st ++ List.map JS.trim lines).
Proof.
  revert st; induction lines as [|l lines IH]; intros st Hall Hin.
  - simpl. rewrite app_nil_r. destruct st; simpl in *; now subst.
  - cbn [forallb] in Hall. apply andb_true_iff in Hall as [Hl Hrest].
    apply negb_true_iff in Hl.
    cbn [table_run fold_left List.map].
    fold (table_run lines (table_body (JS.trim l) st)).
    rewrite table_body_other by assumption. rewrite Hin.
    rewrite IH by (assumption || reflexivity).
    cbn [result app]. now rewrite <- app_assoc.
Qed.

Lemma parseTable_no_rows (text : jsstring) :
  all_lines not_row text = true ->
  parseTable text = Returned (JS.join (trimmed_lines text) [LF]).
Proof.
  unfold all_lines, trimmed_lines, parseTable. intros H.
  rewrite parseTable_result_run.
  rewrite other_run by (assumption || reflexivity).
  reflexivity.
Qed.

(** C5, as the claim states it, fails: the line [" a"] is no table row,
    and the table stage returns ["a"] for it, not the line itself. *)
Lemma table_stage_trims_line :
  not_row (JS.trim indented_line) = true
  /\ parseTable indented_line = Returned (str "a")
  /\ parseTable indented_line <> Returned indented_line.
Proof.
  split; [reflexivity|]. split; [reflexivity|].
  vm_compute. discriminate.
Qed.

(** C5 (amended): an iteration of the loop on a line that matches
    neither row pattern pushes the closing tags when a table is open and
    then the line with its leading and trailing white space removed, and
    leaves no table open; a line that has no white space at either end is
    pushed as it is; and for a text without table rows the stage returns
    the lines of the text, each trimmed and otherwise unaltered, joined by
    line feeds. *)
Theorem non_row_line_passes_trimmed :
  (forall lines n i raw st,
      nth_error lines i = Some raw ->
      not_row (JS.trim raw) = true ->
      table_loop lines (S n) i st
      = table_loop lines n (S i)
          (mkTable false
             (result st
              ++ (if inTable st then [TBODY_CLOSE; TABLE_CLOSE] else [])
              ++ [JS.trim raw])))
  /\ (forall raw, no_outer_space raw = true -> JS.trim raw = raw)
  /\ (forall text,
         all_lines not_row text = true ->
         parseTable text = Returned (JS.join (trimmed_lines text) [LF])).
Proof.
  split; [|split].
  - intros lines n i raw st Hnth Hrow.
    apply negb_true_iff in Hrow.
    cbn [table_loop]. rewrite Hnth.
    now rewrite table_body_other.
  - exact trim_fixed.
  - exact parseTable_no_rows.
Qed.

Lemma non_row_line_passes_trimmed_witness :
  table_loop [str "|x|"; indented_line] 1 1 (mkTable true [TBODY_OPEN])
  = table_loop [str "|x|"; indented_line] 0 2
      (mkTable false [TBODY_OPEN; TBODY_CLOSE; TABLE_CLOSE; str "a"])
  /\ JS.trim (str "a b") = str "a b"
  /\ parseTable (indented_line ++ [LF] ++ str "b ")
     = Returned (JS.join [str "a"; str "b"] [LF]).
Proof.
  split; [|split].
  - exact (proj1 non_row_line_passes_trimmed
                 [str "|x|"; indented_line] 0 1 indented_line
                 (mkTable true [TBODY_OPEN]) eq_refl eq_refl).
  - exact (proj1 (proj2 non_row_line_passes_trimmed) (str "a b") eq_refl).
  - exact (proj2 (proj2 non_row_line_passes_trimmed)
                 (indented_line ++ [LF] ++ str "b ") eq_refl).
Defined.

(* ================================================================= *)
(** ** The converter on the worked examples *)

(** C1, as the claim states it, fails: the converter does not wrap the
    line of ["**bold** text"] in a paragraph tag. *)
Lemma bold_line_not_wrapped :
  parseBacklogWiki bold_text
  <> Returned (paragraph (str "<strong>bold</strong>" ++ str " text")).
Proof. vm_compute. discriminate. Qed.

(** C1 (amended): for the input ["**bold** text"] the converter returns
    [<strong>bold</strong>] followed by [" text"] and nothing around it:
    after the bold substitution the line starts with [<], and the last
    stage wraps only lines that do not. *)
Theorem bold_line_output :
  parseBacklogWiki bold_text
  = Returned (str "<strong>bold</strong>" ++ str " text")
  /\ replace_bold bold_text = str "<strong>bold</strong>" ++ str " text"
  /\ JS.startsWith (replace_bold bold_text) (str "<") = true
  /\ markdown_line bold_text = replace_bold bold_text.
Proof. repeat split; reflexivity. Qed.

(** C2, as the claim states it, fails: the converter does not return the
    empty string for the empty string. *)
Lemma empty_input_not_empty_output :
  parseBacklogWiki [] <> Returned [].
Proof. vm_compute. discriminate. Qed.

(** C2 (amended): for the empty string the converter returns the spacer
    element, the empty string being split into one empty line; it is the
    guard of the pages in front of the converter that returns the empty
    string for empty content. *)
Theorem empty_input_output :
  parseBacklogWiki [] = Returned SPACER
  /\ JS.split [] [LF] = [[]]
  /\ formatContent [] = Returned [].
Proof. repeat split; reflexivity. Qed.

(* ================================================================= *)
(** ** [escapeHtml] *)

Lemma replace_each_app (c : code_unit) (by_ x y : jsstring) :
  DOM.replace_each c by_ (x ++ y)
  = DOM.replace_each c by_ x ++ DOM.replace_each c by_ y.
Proof.
  induction x as [|a x IH]; [reflexivity|].
  cbn [app DOM.replace_each]. now rewrite IH, app_assoc.
Qed.

Lemma escape_string_app (x y : jsstring) :
  DOM.escape_string (x ++ y) = DOM.escape_string x ++ DOM.escape_string y.
Proof.
  unfold DOM.escape_string. cbv zeta. now rewrite !replace_each_app.
Qed.

Lemma replace_each_unit (c x : code_unit) (by_ : jsstring) :
  N.eqb x c = false -> DOM.replace_each c by_ [x] = [x].
Proof. intros H. cbn [DOM.replace_each]. now rewrite H. Qed.

(** The four successive replacements on one code unit. *)
Lemma escape_string_unit (x : code_unit) :
  DOM.escape_string [x] = entity x.
Proof.
  unfold entity.
  destruct (N.eqb x 38) eqn:E1; [apply N.eqb_eq in E1; subst; reflexivity|].
  destruct (N.eqb x 160) eqn:E2; [apply N.eqb_eq in E2; subst; reflexivity|].
  destruct (N.eqb x 60) eqn:E3; [apply N.eqb_eq in E3; subst; reflexivity|].
  destruct (N.eqb x 62) eqn:E4; [apply N.eqb_eq in E4; subst; reflexivity|].
  unfold DOM.escape_string. cbv zeta.
  now rewrite !replace_each_unit.
Qed.

Lemma escape_string_entities (s : jsstring) :
  DOM.escape_string s = flat_map entity s.
Proof.
  induction s as [|x s IH]; [reflexivity|].
  change (x :: s) with ([x] ++ s).
  rewrite escape_string_app, escape_string_unit, IH. reflexivity.
Qed.

Lemma escapeHtml_escape_string (text : jsstring) :
  escapeHtml text = DOM.escape_string text.
Proof.
  destruct text as [|c t]; [reflexivity|].
  unfold escapeHtml, DOM.get_innerHTML, DOM.set_textContent, DOM.createElement.
  cbn [DOM.localName DOM.childNodes List.map List.concat DOM.serialize_child].
  change (DOM.is_raw_text_parent (str "div")) with false.
  cbv iota. apply app_nil_r.
Qed.

(** C3, as the claim states it, fails: [escapeHtml] returns either quote
    character as it is. *)
Lemma escapeHtml_keeps_quotes :
  escapeHtml dq = dq
  /\ escapeHtml sq = sq
  /\ escapeHtml dq <> spec_escapeHtml dq
  /\ escapeHtml sq <> spec_escapeHtml sq.
Proof.
  split; [reflexivity|]. split; [reflexivity|].
  split; vm_compute; discriminate.
Qed.

(** C3 (amended): for every input string [escapeHtml] returns the string
    with [&] replaced by [&amp;], [<] by [&lt;], [>] by [&gt;] and the
    no-break space U+00A0 by [&nbsp;]; every other code unit, the quote
    characters among them, is returned as it is. *)
Theorem escapeHtml_entities (text : jsstring) :
  escapeHtml text = flat_map entity text
  /\ entity 38%N = str "&amp;" /\ entity 60%N = str "&lt;"
  /\ entity 62%N = str "&gt;" /\ entity 160%N = str "&nbsp;"
  /\ forall c : code_unit,
      c <> 38%N -> c <> 60%N -> c <> 62%N -> c <> 160%N -> entity c = [c].
Proof.
  split; [now rewrite escapeHtml_escape_string, escape_string_entities|].
  repeat (split; [reflexivity|]).
  intros c H1 H2 H3 H4. unfold entity.
  apply N.eqb_neq in H1, H2, H3, H4. now rewrite H1, H2, H3, H4.
Qed.

Lemma escapeHtml_entities_witness :
  escapeHtml (str "a<b & " ++ dq ++ str "c" ++ dq)
  = str "a&lt;b &amp; " ++ dq ++ str "c" ++ dq
  /\ entity 34%N = [34%N].
Proof.
  pose proof (escapeHtml_entities (str "a<b & " ++ dq ++ str "c" ++ dq)) as H.
  split.
  - exact (proj1 H).
  - apply H; discriminate.
Defined.

(* ================================================================= *)
(** ** Global replacement *)

Section ReplaceFacts.

Variable C : Type.
Variable exec : jsstring -> option (C * nat).
Variable replacer : C -> jsstring.

Lemma replace_from_skipn (s : jsstring) (k : nat) :
  replace_from exec replacer s k = replace_all exec replacer (skipn k s).
Proof.
  unfold replace_all.
  revert k; induction s as [|c s IH]; intros k.
  - now destruct k.
  - destruct k as [|k]; [reflexivity|]. cbn [replace_from skipn]. apply IH.
Qed.

(** A match at the head is replaced and the scan resumes behind it. *)
Lemma replace_all_match (s : jsstring) (caps : C) (n : nat) :
  s <> [] ->
  exec s = Some (caps, S n) ->
  replace_all exec replacer s
  = replacer caps ++ replace_all exec replacer (skipn (S n) s).
Proof.
  intros Hs He. destruct s as [|c s]; [congruence|].
  unfold replace_all at 1. cbn [replace_from]. rewrite He.
  rewrite replace_from_skipn. cbn [skipn].
  now replace (S n - 1) with n by lia.
Qed.

(** What precedes the first match is copied. *)
Lemma replace_all_unmatched_prefix (pre rest : jsstring) :
  unmatched_prefix exec pre rest = true ->
  replace_all exec replacer (pre ++ rest)
  = pre ++ replace_all exec replacer rest.
Proof.
  induction pre as [|c pre IH]; intros H; [reflexivity|].
  cbn [unmatched_prefix] in H.
  unfold replace_all at 1. cbn [app replace_from].
  change (c :: pre ++ rest) with ((c :: pre) ++ rest).
  destruct (exec ((c :: pre) ++ rest)) as [m|]; [discriminate|].
  cbn [app]. f_equal. now apply IH.
Qed.

(** Without a match the subject is returned as it is. *)
Lemma replace_all_no_match (s : jsstring) :
  has_match exec s = false -> replace_all exec replacer s = s.
Proof.
  unfold replace_all.
  induction s as [|c s IH]; intros H; [reflexivity|].
  cbn [has_match] in H. cbn [replace_from].
  destruct (exec (c :: s)) as [m|]; [discriminate|].
  f_equal. now apply IH.
Qed.

End ReplaceFacts.

(* ================================================================= *)
(** ** The pattern of the fenced code block *)

Lemma lazy_any_until_unfold (pat s : jsstring) :
  Regex.lazy_any_until pat s
  = if JS.is_prefix pat s then Some []
    else match s with
         | [] => None
         | c :: s' => option_map (cons c) (Regex.lazy_any_until pat s')
         end.
Proof. destruct s; reflexivity. Qed.

Lemma lazy_any_until_sound (pat s body : jsstring) :
  Regex.lazy_any_until pat s = Some body ->
  exists rest, s = body ++ pat ++ rest /\ shortest_body pat body rest = true.
Proof.
  revert body; induction s as [|c s IH]; intros body H;
    rewrite lazy_any_until_unfold in H.
  - destruct (JS.is_prefix pat []) eqn:E; [|discriminate].
    injection H as <-. exists (skipn (List.length pat) []).
    split; [now apply is_prefix_spec|reflexivity].
  - destruct (JS.is_prefix pat (c :: s)) eqn:E.
    + injection H as <-. exists (skipn (List.length pat) (c :: s)).
      split; [now apply is_prefix_spec|reflexivity].
    + destruct (Regex.lazy_any_until pat s) as [b|] eqn:Eb; [|discriminate].
      injection H as <-.
      destruct (IH b eq_refl) as [rest [Hs Hshort]].
      exists rest. split; [now rewrite Hs|].
      cbn [shortest_body]. rewrite Hshort.
      change ((c :: b) ++ pat ++ rest) with (c :: b ++ pat ++ rest).
      now rewrite <- Hs, E.
Qed.

Lemma lazy_any_until_complete (pat body rest : jsstring) :
  shortest_body pat body rest = true ->
  Regex.lazy_any_until pat (body ++ pat ++ rest) = Some body.
Proof.
  induction body as [|c b IH]; intros H; rewrite lazy_any_until_unfold.
  - cbn [app]. now rewrite is_prefix_app.
  - cbn [shortest_body] in H. apply andb_true_iff in H as [H1 H2].
    apply negb_true_iff in H1. rewrite H1.
    cbn [app]. now rewrite IH.
Qed.

Lemma take_while_stop (p : code_unit -> bool) (w rest : jsstring) :
  forallb p w = true ->
  match rest with
  | [] => True
  | c :: _ => p c = false
  end ->
  JS.take_while p (w ++ rest) = w.
Proof.
  intros Hw Hrest. induction w as [|c w IH].
  - destruct rest as [|c rest]; [reflexivity|]. cbn [app JS.take_while].
    now rewrite Hrest.
  - cbn [forallb] in Hw. apply andb_true_iff in Hw as [Hc Hw].
    cbn [app JS.take_while]. now rewrite Hc, IH.
Qed.

Lemma strip_prefix_app (p rest : jsstring) :
  Regex.strip_prefix p (p ++ rest) = Some rest.
Proof.
  unfold Regex.strip_prefix. rewrite is_prefix_app. f_equal.
  induction p as [|a p IH]; [reflexivity|exact IH].
Qed.

Lemma skipn_length_app (a b : jsstring) : skipn (List.length a) (a ++ b) = b.
Proof. induction a as [|x a IH]; [reflexivity|exact IH]. Qed.

(** The fence without a language, from behind [{code]. *)
Lemma codeBlockPattern_plain_tail (r1 : jsstring) (language : option jsstring)
      (code : jsstring) (len : nat) :
  match
    match Regex.strip_prefix (str "}") r1 with
    | Some r3 => Some (@None jsstring, r3, 0)
    | None => None
    end
  with
  | Some (language, r3, n) =>
      match Regex.lazy_any_until (str "{/code}") r3 with
      | Some code => Some (language, code, 5 + n + 1 + List.length code + 7)
      | None => None
      end
  | None => None
  end = Some (language, code, len) ->
  language = None
  /\ exists rest,
      r1 = str "}" ++ code ++ str "{/code}" ++ rest
      /\ len = 5 + 0 + 1 + List.length code + 7
      /\ shortest_body (str "{/code}") code rest = true.
Proof.
  intros H.
  destruct (Regex.strip_prefix (str "}") r1) as [r3|] eqn:E3; [|discriminate].
  apply strip_prefix_spec in E3.
  destruct (Regex.lazy_any_until (str "{/code}") r3) as [b|] eqn:Eb;
    [|discriminate].
  injection H as <- <- <-.
  apply lazy_any_until_sound in Eb as [rest [Hr Hshort]].
  split; [reflexivity|]. exists rest. subst r3. now repeat split.
Qed.

Lemma fence_length (language : option jsstring) (code : jsstring) :
  List.length (fence language code)
  = 5 + List.length (language_part language) + 1 + List.length code + 7.
Proof.
  unfold fence. rewrite !length_app.
  change (List.length (str "{code")) with 5.
  change (List.length (str "}")) with 1.
  change (List.length (str "{/code}")) with 7. lia.
Qed.

Lemma codeBlockPattern_sound (s : jsstring) (language : option jsstring)
      (code : jsstring) (len : nat) :
  Regex.codeBlockPattern s = Some ((language, code), len) ->
  is_language language = true
  /\ exists rest,
      s = fence language code ++ rest
      /\ len = List.length (fence language code)
      /\ shortest_body (str "{/code}") code rest = true.
Proof.
  unfold Regex.codeBlockPattern. intros H.
  destruct (Regex.strip_prefix (str "{code") s) as [r1|] eqn:E1; [|discriminate].
  apply strip_prefix_spec in E1.
  assert (Hplain :
            forall r2, r1 = str ":" ++ r2 ->
                       Regex.strip_prefix (str "}") r1 = None).
  { intros r2 ->. reflexivity. }
  destruct (Regex.strip_prefix (str ":") r1) as [r2|] eqn:E2.
  - apply strip_prefix_spec in E2.
    destruct (JS.take_while JS.is_word r2) as [|w0 w] eqn:Ew.
    + rewrite (Hplain r2 E2) in H. discriminate.
    + destruct (Regex.strip_prefix (str "}")
                  (skipn (List.length (w0 :: w)) r2)) as [r3|] eqn:E3.
      * apply strip_prefix_spec in E3.
        destruct (Regex.lazy_any_until (str "{/code}") r3) as [b|] eqn:Eb;
          [|discriminate].
        injection H as <- <- <-.
        apply lazy_any_until_sound in Eb as [rest [Hr Hshort]].
        split.
        -- cbn [is_language is_empty negb andb]. rewrite <- Ew.
           apply take_while_all.
        -- exists rest. split; [|split; [|exact Hshort]].
           ++ unfold fence, language_part.
              rewrite E1, E2, (take_while_drop JS.is_word r2), Ew, E3, Hr.
              rewrite <- Ew at 1.
              repeat rewrite <- app_assoc. rewrite Ew. reflexivity.
           ++ rewrite fence_length. unfold language_part.
              rewrite length_app. change (List.length (str ":")) with 1.
              cbn [List.length]. lia.
      * rewrite (Hplain r2 E2) in H. discriminate.
  - apply codeBlockPattern_plain_tail in H as [-> [rest [Hr [Hlen Hshort]]]].
    split; [reflexivity|]. exists rest. split; [|split; [|exact Hshort]].
    + unfold fence, language_part. rewrite E1, Hr.
      repeat rewrite <- app_assoc. reflexivity.
    + rewrite fence_length. cbn [language_part List.length]. lia.
Qed.

Lemma codeBlockPattern_complete (language : option jsstring) (code rest : jsstring) :
  is_language language = true ->
  shortest_body (str "{/code}") code rest = true ->
  Regex.codeBlockPattern (fence language code ++ rest)
  = Some ((language, code), List.length (fence language code)).
Proof.
  intros Hlang Hshort.
  pose proof (lazy_any_until_complete _ _ _ Hshort) as Hlazy.
  rewrite fence_length.
  unfold Regex.codeBlockPattern, fence.
  repeat rewrite <- app_assoc. rewrite strip_prefix_app.
  destruct language as [l|]; cbn [language_part is_language] in *.
  - apply andb_true_iff in Hlang as [Hne Hword].
    repeat rewrite <- app_assoc. rewrite strip_prefix_app.
    rewrite (take_while_stop JS.is_word l _ Hword) by reflexivity.
    destruct l as [|l0 l]; [discriminate|].
    rewrite skipn_length_app, strip_prefix_app, Hlazy.
    rewrite length_app. change (List.length (str ":")) with 1.
    do 2 f_equal.
  - cbn [app].
    change (Regex.strip_prefix (str ":") (str "}" ++ code ++ str "{/code}" ++ rest))
      with (@None jsstring).
    rewrite strip_prefix_app, Hlazy. reflexivity.
Qed.

Lemma language_or_text_class (language : option jsstring) :
  is_language language = true ->
  language_or_text language = language_class language.
Proof.
  destruct language as [[|c l]|]; [discriminate|reflexivity|reflexivity].
Qed.

Lemma parseCodeBlock_fence (pre : jsstring) (language : option jsstring)
      (code rest : jsstring) :
  is_language language = true ->
  shortest_body (str "{/code}") code rest = true ->
  unmatched_prefix Regex.codeBlockPattern pre (fence language code ++ rest) = true ->
  parseCodeBlock (pre ++ fence language code ++ rest)
  = pre ++ code_block (language_class language) (escapeHtml (JS.trim code))
    ++ parseCodeBlock rest.
Proof.
  intros Hlang Hshort Hpre. unfold parseCodeBlock.
  rewrite replace_all_unmatched_prefix by assumption. f_equal.
  pose proof (codeBlockPattern_complete language code rest Hlang Hshort) as He.
  pose proof (fence_length language code) as Hlen.
  destruct (List.length (fence language code)) as [|n] eqn:En; [lia|].
  rewrite (replace_all_match _ codeBlock_replacer
             (s := fence language code ++ rest) (caps := (language, code)) (n := n)).
  - rewrite <- En, skipn_length_app.
    cbn [codeBlock_replacer]. now rewrite language_or_text_class.
  - intros E. apply (f_equal (@List.length _)) in E.
    rewrite length_app, En in E. discriminate.
  - exact He.
Qed.

(** The stages behind the code-block stage read its output line by line:
    the block of a two-line body leaves the code-block stage whole, and
    the last stage then wraps the line that does not start with [<]. *)
Remark two_line_fence_through_stages :
  parseCodeBlock two_line_fence
  = code_block (str "text") (str "a" ++ [LF] ++ str "b")
  /\ parseBacklogWiki two_line_fence
     = Returned (str "<pre class=" ++ dq ++ str "backlog-code-block" ++ dq
                 ++ str "><code class=" ++ dq ++ str "language-text" ++ dq
                 ++ str ">a" ++ [LF]
                 ++ paragraph (str "b</code></pre>")).
Proof. split; reflexivity. Qed.

(* ================================================================= *)
(** ** Text without markup *)

Lemma drop_while_LF_free (p : code_unit -> bool) (s : jsstring) :
  LF_free s = true -> LF_free (JS.drop_while p s) = true.
Proof.
  unfold LF_free. induction s as [|c s IH]; intros H; [reflexivity|].
  cbn [JS.drop_while]. destruct (p c); [|exact H].
  cbn [forallb] in H. apply andb_true_iff in H as [_ H]. now apply IH.
Qed.

Lemma rev_LF_free (s : jsstring) :
  LF_free s = true -> LF_free (rev s) = true.
Proof.
  unfold LF_free. rewrite !forallb_forall.
  intros H x Hx. apply H. now apply in_rev.
Qed.

Lemma trim_LF_free (s : jsstring) :
  LF_free s = true -> LF_free (JS.trim s) = true.
Proof.
  intros H. unfold JS.trim, JS.trimEnd, JS.trimStart.
  apply rev_LF_free, drop_while_LF_free, rev_LF_free.
  now apply drop_while_LF_free.
Qed.

Lemma trimmed_lines_LF_free (text : jsstring) :
  forallb LF_free (trimmed_lines text) = true.
Proof.
  unfold trimmed_lines. pose proof (split_LF_free text) as H.
  induction (JS.split text [LF]) as [|l ls IH]; [reflexivity|].
  cbn [forallb List.map] in *. apply andb_true_iff in H as [Hl Hls].
  now rewrite trim_LF_free, IH.
Qed.

Lemma trimmed_lines_nonempty (text : jsstring) : trimmed_lines text <> [].
Proof.
  unfold trimmed_lines. pose proof (split_nonempty text [LF]) as H.
  destruct (JS.split text [LF]); [congruence|discriminate].
Qed.

(** The last stage on a trimmed line without markup. *)
Lemma markdown_line_plain (raw : jsstring) :
  plain_line (JS.trim raw) = true ->
  markdown_line (JS.trim raw) = plain_render raw.
Proof.
  unfold plain_line. intros H.
  repeat (apply andb_true_iff in H as [H ?]).
  repeat match goal with
         | Hn : negb _ = true |- _ => apply negb_true_iff in Hn
         end.
  unfold markdown_line, plain_render, replace_bold. cbv zeta.
  rewrite replace_all_no_match by assumption.
  rewrite trim_idempotent.
  repeat match goal with
         | Hs : JS.startsWith _ _ = false |- _ => rewrite Hs; clear Hs
         end.
  destruct (is_empty (JS.trim raw)); [reflexivity|].
  destruct (JS.startsWith (JS.trim raw) (str "<")); reflexivity.
Qed.

Lemma map_markdown_line_plain (ls : list jsstring) :
  forallb plain_line (List.map JS.trim ls) = true ->
  List.map markdown_line (List.map JS.trim ls) = List.map plain_render ls.
Proof.
  induction ls as [|l ls IH]; intros H; [reflexivity|].
  cbn [List.map forallb] in *. apply andb_true_iff in H as [Hl Hls].
  now rewrite markdown_line_plain, IH.
Qed.

Lemma plain_lines_not_rows (text : jsstring) :
  forallb plain_line (trimmed_lines text) = true ->
  all_lines not_row text = true.
Proof.
  unfold all_lines, trimmed_lines. rewrite forallb_map_trim.
  apply forallb_weaken. intros x H. unfold plain_line in H.
  repeat (apply andb_true_iff in H as [H _]). exact H.
Qed.

(** C6, as the claim states it, fails on prose with white space at the
    start of a line, which the converter drops, and on prose that starts
    with [<], which the converter does not wrap. *)
Lemma plain_text_not_only_wrapped :
  (no_markup indented_line = true
   /\ parseBacklogWiki indented_line = Returned (paragraph (str "a"))
   /\ parseBacklogWiki indented_line
      <> Returned (spec_plain_output indented_line))
  /\ (no_markup heart_line = true
      /\ parseBacklogWiki heart_line = Returned heart_line
      /\ parseBacklogWiki heart_line
         <> Returned (spec_plain_output heart_line)).
Proof.
  split; (split; [reflexivity|]; split; [reflexivity|]);
    vm_compute; discriminate.
Qed.

(** C6 (amended): for every input in which the converter recognises no
    markup construct, the output is the input with every line trimmed of
    its leading and trailing white space and then: a blank line replaced
    by the spacer element, a line that starts with [<] left as it is, and
    any other line wrapped in a paragraph tag; the lines and the line
    feeds between them are otherwise unchanged. *)
Theorem plain_text_output (text : jsstring) :
  no_markup text = true ->
  parseBacklogWiki text
  = Returned (JS.join (List.map plain_render (JS.split text [LF])) [LF]).
Proof.
  unfold no_markup. intros H.
  apply andb_true_iff in H as [H Hinline].
  apply andb_true_iff in H as [Hlines Hcode].
  apply negb_true_iff in Hinline, Hcode.
  unfold parseBacklogWiki.
  rewrite parseTable_no_rows by now apply plain_lines_not_rows.
  cbn [bind]. f_equal.
  unfold parseCodeBlock. rewrite replace_all_no_match by assumption.
  unfold parseInlineCode. rewrite replace_all_no_match by assumption.
  unfold parseBasicMarkdown.
  rewrite split_join
    by (apply trimmed_lines_nonempty || apply trimmed_lines_LF_free).
  unfold trimmed_lines in *. now rewrite map_markdown_line_plain.
Qed.

Lemma plain_text_output_witness :
  parseBacklogWiki prose
  = Returned (paragraph (str "two  words") ++ [LF] ++ SPACER
              ++ [LF] ++ heart_line).
Proof.
  exact (plain_text_output prose eq_refl).
Defined.

(* ================================================================= *)
(** ** Further properties of [escapeHtml] *)

Lemma escapeHtml_flat_map (text : jsstring) :
  escapeHtml text = flat_map entity text.
Proof. now rewrite escapeHtml_escape_string, escape_string_entities. Qed.

Lemma entity_no_angle (c : code_unit) :
  free_of 60%N (entity c) = true /\ free_of 62%N (entity c) = true.
Proof.
  unfold entity.
  destruct (N.eqb c 38) eqn:E1; [split; reflexivity|].
  destruct (N.eqb c 160) eqn:E2; [split; reflexivity|].
  destruct (N.eqb c 60) eqn:E3; [split; reflexivity|].
  destruct (N.eqb c 62) eqn:E4; [split; reflexivity|].
  unfold free_of. cbn [forallb]. now rewrite E3, E4.
Qed.

Lemma free_of_app (c : code_unit) (a b : jsstring) :
  free_of c (a ++ b) = free_of c a && free_of c b.
Proof. apply forallb_app. Qed.

(** X1: whatever the text, the string [escapeHtml] returns holds neither
    [<] nor [>]: escaped text cannot open or close a tag. *)
Theorem escapeHtml_no_angle_bracket (text : jsstring) :
  free_of 60%N (escapeHtml text) = true /\ free_of 62%N (escapeHtml text) = true.
Proof.
  rewrite escapeHtml_flat_map.
  induction text as [|c text [IH1 IH2]]; [split; reflexivity|].
  cbn [flat_map]. rewrite !free_of_app, IH1, IH2.
  destruct (entity_no_angle c) as [-> ->]. split; reflexivity.
Qed.

Lemma entity_cancel (x y : code_unit) (a b : jsstring) :
  entity x ++ a = entity y ++ b -> x = y /\ a = b.
Proof.
  unfold entity. intros H.
  destruct (N.eqb x 38) eqn:X1; [apply N.eqb_eq in X1; subst x|];
  [|destruct (N.eqb x 160) eqn:X2; [apply N.eqb_eq in X2; subst x|]];
  [| |destruct (N.eqb x 60) eqn:X3; [apply N.eqb_eq in X3; subst x|]];
  [| | |destruct (N.eqb x 62) eqn:X4; [apply N.eqb_eq in X4; subst x|]];
  (destruct (N.eqb y 38) eqn:Y1; [apply N.eqb_eq in Y1; subst y|];
   [|destruct (N.eqb y 160) eqn:Y2; [apply N.eqb_eq in Y2; subst y|]];
   [| |destruct (N.eqb y 60) eqn:Y3; [apply N.eqb_eq in Y3; subst y|]];
   [| | |destruct (N.eqb y 62) eqn:Y4; [apply N.eqb_eq in Y4; subst y|]]);
  cbn in H; try discriminate;
  try (injection H as <-; auto; fail);
  try (injection H as -> ?; discriminate);
  try (injection H as <- ?; discriminate).
  all: injection H; intros; subst; try discriminate; auto.
Qed.

Lemma entity_nonempty (c : code_unit) : entity c <> [].
Proof.
  unfold entity.
  destruct (N.eqb c 38); [discriminate|].
  destruct (N.eqb c 160); [discriminate|].
  destruct (N.eqb c 60); [discriminate|].
  destruct (N.eqb c 62); discriminate.
Qed.

Lemma flat_map_entity_injective (a b : jsstring) :
  flat_map entity a = flat_map entity b -> a = b.
Proof.
  revert b; induction a as [|x a IH]; intros [|y b] H; cbn [flat_map] in H.
  - reflexivity.
  - symmetry in H. apply app_eq_nil in H as [H _].
    now apply entity_nonempty in H.
  - apply app_eq_nil in H as [H _]. now apply entity_nonempty in H.
  - apply entity_cancel in H as [-> H]. f_equal. now apply IH.
Qed.

(** X2: [escapeHtml] loses nothing: two texts with the same escaped form
    are the same text. *)
Theorem escapeHtml_injective (a b : jsstring) :
  escapeHtml a = escapeHtml b -> a = b.
Proof.
  rewrite !escapeHtml_flat_map. apply flat_map_entity_injective.
Qed.

Lemma escapeHtml_injective_witness :
  str "a<b" ++ dq = str "a<b" ++ dq.
Proof.
  exact (escapeHtml_injective (str "a<b" ++ dq) (str "a<b" ++ dq) eq_refl).
Defined.

(** X3: escaping a concatenation is concatenating the escaped parts, the
    empty text included, so a text can be escaped piece by piece. *)
Theorem escapeHtml_app (a b : jsstring) :
  escapeHtml (a ++ b) = escapeHtml a ++ escapeHtml b.
Proof.
  rewrite !escapeHtml_flat_map. apply flat_map_app.
Qed.

(* ================================================================= *)
(** ** The pattern of the inline code span *)

Lemma free_of_take_while (c : code_unit) (s : jsstring) :
  free_of c (JS.take_while (fun x => negb (N.eqb x c)) s) = true.
Proof. apply take_while_all. Qed.

Lemma inlineCodePattern_sound (s code : jsstring) (len : nat) :
  Regex.inlineCodePattern s = Some (code, len) ->
  is_inline_body code = true
  /\ exists rest,
      s = inline_span code ++ rest
      /\ len = List.length (inline_span code).
Proof.
  unfold Regex.inlineCodePattern. intros H.
  destruct (Regex.strip_prefix (str "&code(") s) as [r|] eqn:E1; [|discriminate].
  apply strip_prefix_spec in E1.
  destruct (JS.take_while (fun c => negb (N.eqb c 41)) r) as [|w0 w] eqn:Ew;
    [discriminate|].
  destruct (Regex.strip_prefix (str ");") (skipn (List.length (w0 :: w)) r))
    as [rest|] eqn:E2; [|discriminate].
  apply strip_prefix_spec in E2.
  injection H as <- <-.
  split.
  - unfold is_inline_body. cbn [is_empty negb andb]. rewrite <- Ew.
    apply free_of_take_while.
  - exists rest. split.
    + unfold inline_span.
      rewrite E1, (take_while_drop (fun c => negb (N.eqb c 41)) r), Ew, E2.
      now repeat rewrite <- app_assoc.
    + unfold inline_span. rewrite !length_app.
      change (List.length (str "&code(")) with 6.
      change (List.length (str ");")) with 2. cbn [List.length]. lia.
Qed.

Lemma inlineCodePattern_complete (code rest : jsstring) :
  is_inline_body code = true ->
  Regex.inlineCodePattern (inline_span code ++ rest)
  = Some (code, List.length (inline_span code)).
Proof.
  unfold is_inline_body. intros H. apply andb_true_iff in H as [Hne Hfree].
  unfold Regex.inlineCodePattern, inline_span.
  repeat rewrite <- app_assoc. rewrite strip_prefix_app.
  rewrite (take_while_stop (fun c => negb (N.eqb c 41)) code _ Hfree)
    by reflexivity.
  destruct code as [|c0 code]; [discriminate|].
  rewrite skipn_length_app, strip_prefix_app.
  rewrite !length_app.
  change (List.length (str "&code(")) with 6.
  change (List.length (str ");")) with 2.
  do 2 f_equal; lia.
Qed.

(** The first [)] behind [&code(] has to be followed by [;]. *)
Lemma inlineCodePattern_paren (code rest : jsstring) :
  free_of RPAREN code = true ->
  JS.is_prefix (str ";") rest = false ->
  Regex.inlineCodePattern (str "&code(" ++ code ++ [RPAREN] ++ rest) = None.
Proof.
  intros Hfree Hrest.
  unfold Regex.inlineCodePattern. rewrite strip_prefix_app.
  rewrite (take_while_stop (fun c => negb (N.eqb c 41)) code _ Hfree)
    by reflexivity.
  destruct code as [|c0 code]; [reflexivity|].
  rewrite skipn_length_app.
  unfold Regex.strip_prefix.
  change (JS.is_prefix (str ");") ([RPAREN] ++ rest))
    with (JS.is_prefix (str ";") rest).
  now rewrite Hrest.
Qed.

Lemma parseInlineCode_span (pre code rest : jsstring) :
  is_inline_body code = true ->
  unmatched_prefix Regex.inlineCodePattern pre (inline_span code ++ rest) = true ->
  parseInlineCode (pre ++ inline_span code ++ rest)
  = pre ++ inlineCode_replacer code ++ parseInlineCode rest.
Proof.
  intros Hbody Hpre. unfold parseInlineCode.
  rewrite replace_all_unmatched_prefix by assumption. f_equal.
  pose proof (inlineCodePattern_complete code rest Hbody) as He.
  assert (Hlen : List.length (inline_span code) = S (7 + List.length code)).
  { unfold inline_span. rewrite !length_app.
    change (List.length (str "&code(")) with 6.
    change (List.length (str ");")) with 2. lia. }
  rewrite Hlen in He.
  rewrite (replace_all_match _ inlineCode_replacer
             (s := inline_span code ++ rest) (caps := code)
             (n := 7 + List.length code)).
  - now rewrite <- Hlen, skipn_length_app.
  - intros E. apply (f_equal (@List.length _)) in E.
    rewrite length_app, Hlen in E. discriminate.
  - exact He.
Qed.

(** X4: the pattern of the inline-code stage matches exactly the spans
    [&code(body);] whose body is not empty and holds no [)]; the first
    [)] behind [&code(] must be followed by [;], or there is no match at
    that place.  For the first span of a text the stage emits the [code]
    element around the body escaped by [escapeHtml], the body not
    trimmed, and goes on behind the span.  The inline-code template of
    the catalog, whose body is [console.log()], holds no match and is
    returned as it is. *)
Theorem inline_code_emits_element :
  (forall s code len,
      Regex.inlineCodePattern s = Some (code, len) ->
      is_inline_body code = true
      /\ exists rest,
          s = inline_span code ++ rest
          /\ len = List.length (inline_span code))
  /\ (forall code rest,
         is_inline_body code = true ->
         Regex.inlineCodePattern (inline_span code ++ rest)
         = Some (code, List.length (inline_span code)))
  /\ (forall code rest,
         free_of RPAREN code = true ->
         JS.is_prefix (str ";") rest = false ->
         Regex.inlineCodePattern (str "&code(" ++ code ++ [RPAREN] ++ rest)
         = None)
  /\ (forall pre code rest,
         is_inline_body code = true ->
         unmatched_prefix Regex.inlineCodePattern pre (inline_span code ++ rest)
         = true ->
         parseInlineCode (pre ++ inline_span code ++ rest)
         = pre
           ++ str "<code class=" ++ dq ++ str "backlog-inline-code" ++ dq
           ++ str ">" ++ escapeHtml code ++ str "</code>"
           ++ parseInlineCode rest)
  /\ parseInlineCode (getWikiTemplates key_inlineCode)
     = getWikiTemplates key_inlineCode.
Proof.
  split; [exact inlineCodePattern_sound|].
  split; [exact inlineCodePattern_complete|].
  split; [exact inlineCodePattern_paren|].
  split; [|reflexivity].
  intros pre code rest Hbody Hpre.
  rewrite parseInlineCode_span by assumption.
  unfold inlineCode_replacer. now repeat rewrite <- app_assoc.
Qed.

Lemma inline_code_emits_element_witness :
  (is_inline_body (str "a&b") = true
   /\ exists rest,
       str "&code(a&b); x" = inline_span (str "a&b") ++ rest
       /\ 11 = List.length (inline_span (str "a&b")))
  /\ Regex.inlineCodePattern (inline_span (str " f ") ++ str "!")
     = Some (str " f ", 11)
  /\ Regex.inlineCodePattern
       (str "&code(" ++ str "console.log(" ++ [RPAREN] ++ str ");") = None
  /\ parseInlineCode (str "use " ++ inline_span (str " a&b ") ++ str "!")
     = str "use " ++ str "<code class=" ++ dq ++ str "backlog-inline-code"
       ++ dq ++ str ">" ++ str " a&amp;b " ++ str "</code>" ++ str "!".
Proof.
  split; [|split; [|split]].
  - exact (proj1 inline_code_emits_element (str "&code(a&b); x")
                 (str "a&b") 11 eq_refl).
  - exact (proj1 (proj2 inline_code_emits_element)
                 (str " f ") (str "!") eq_refl).
  - exact (proj1 (proj2 (proj2 inline_code_emits_element))
                 (str "console.log(") (str ");") eq_refl eq_refl).
  - exact (proj1 (proj2 (proj2 (proj2 inline_code_emits_element)))
                 (str "use ") (str " a&b ") (str "!") eq_refl eq_refl).
Defined.

(* ================================================================= *)
(** ** The pattern of the bold span *)

Lemma lazy_dot_until_unfold (pat s : jsstring) :
  Regex.lazy_dot_until pat s
  = if JS.is_prefix pat s then Some []
    else match s with
         | [] => None
         | c :: s' =>
             if JS.is_line_terminator c then None
             else option_map (cons c) (Regex.lazy_dot_until pat s')
         end.
Proof. destruct s; reflexivity. Qed.

Lemma lazy_dot_until_sound (pat s inner : jsstring) :
  Regex.lazy_dot_until pat s = Some inner ->
  on_one_line inner = true
  /\ exists rest, s = inner ++ pat ++ rest
                  /\ shortest_body pat inner rest = true.
Proof.
  revert inner; induction s as [|c s IH]; intros inner H;
    rewrite lazy_dot_until_unfold in H.
  - destruct (JS.is_prefix pat []) eqn:E; [|discriminate].
    injection H as <-. split; [reflexivity|].
    exists (skipn (List.length pat) []).
    split; [now apply is_prefix_spec|reflexivity].
  - destruct (JS.is_prefix pat (c :: s)) eqn:E.
    + injection H as <-. split; [reflexivity|].
      exists (skipn (List.length pat) (c :: s)).
      split; [now apply is_prefix_spec|reflexivity].
    + destruct (JS.is_line_terminator c) eqn:Ec; [discriminate|].
      destruct (Regex.lazy_dot_until pat s) as [b|] eqn:Eb; [|discriminate].
      injection H as <-.
      destruct (IH b eq_refl) as [Hline [rest [Hs Hshort]]].
      split.
      * unfold on_one_line in *. cbn [forallb]. now rewrite Ec, Hline.
      * exists rest. split; [now rewrite Hs|].
        cbn [shortest_body]. rewrite Hshort.
        change ((c :: b) ++ pat ++ rest) with (c :: b ++ pat ++ rest).
        now rewrite <- Hs, E.
Qed.

Lemma lazy_dot_until_complete (pat inner rest : jsstring) :
  on_one_line inner = true ->
  shortest_body pat inner rest = true ->
  Regex.lazy_dot_until pat (inner ++ pat ++ rest) = Some inner.
Proof.
  induction inner as [|c b IH]; intros Hline H; rewrite lazy_dot_until_unfold.
  - cbn [app]. now rewrite is_prefix_app.
  - cbn [shortest_body] in H. apply andb_true_iff in H as [H1 H2].
    apply negb_true_iff in H1. rewrite H1.
    unfold on_one_line in Hline. cbn [forallb] in Hline.
    apply andb_true_iff in Hline as [Hc Hb]. apply negb_true_iff in Hc.
    cbn [app]. rewrite Hc. now rewrite IH.
Qed.

Lemma bold_span_length (inner : jsstring) :
  List.length (bold_span inner) = S (3 + List.length inner).
Proof.
  unfold bold_span. rewrite !length_app.
  change (List.length (str "**")) with 2. lia.
Qed.

Lemma boldPattern_sound (s inner : jsstring) (len : nat) :
  Regex.boldPattern s = Some (inner, len) ->
  on_one_line inner = true
  /\ exists rest,
      s = bold_span inner ++ rest
      /\ len = List.length (bold_span inner)
      /\ shortest_body (str "**") inner rest = true.
Proof.
  unfold Regex.boldPattern. intros H.
  destruct (Regex.strip_prefix (str "**") s) as [r|] eqn:E1; [|discriminate].
  apply strip_prefix_spec in E1.
  destruct (Regex.lazy_dot_until (str "**") r) as [b|] eqn:Eb; [|discriminate].
  injection H as <- <-.
  apply lazy_dot_until_sound in Eb as [Hline [rest [Hr Hshort]]].
  split; [exact Hline|]. exists rest. split; [|split; [|exact Hshort]].
  - unfold bold_span. rewrite E1, Hr. now repeat rewrite <- app_assoc.
  - rewrite bold_span_length. lia.
Qed.

Lemma boldPattern_complete (inner rest : jsstring) :
  on_one_line inner = true ->
  shortest_body (str "**") inner rest = true ->
  Regex.boldPattern (bold_span inner ++ rest)
  = Some (inner, List.length (bold_span inner)).
Proof.
  intros Hline Hshort.
  unfold Regex.boldPattern, bold_span.
  repeat rewrite <- app_assoc. rewrite strip_prefix_app.
  rewrite lazy_dot_until_complete by assumption.
  rewrite !length_app. change (List.length (str "**")) with 2.
  do 2 f_equal; lia.
Qed.

Lemma replace_bold_span (pre inner rest : jsstring) :
  on_one_line inner = true ->
  shortest_body (str "**") inner rest = true ->
  unmatched_prefix Regex.boldPattern pre (bold_span inner ++ rest) = true ->
  replace_bold (pre ++ bold_span inner ++ rest)
  = pre ++ bold_replacer inner ++ replace_bold rest.
Proof.
  intros Hline Hshort Hpre. unfold replace_bold.
  rewrite replace_all_unmatched_prefix by assumption. f_equal.
  pose proof (boldPattern_complete inner rest Hline Hshort) as He.
  rewrite bold_span_length in He.
  rewrite (replace_all_match _ bold_replacer
             (s := bold_span inner ++ rest) (caps := inner)
             (n := 3 + List.length inner)).
  - now rewrite <- bold_span_length, skipn_length_app.
  - intros E. apply (f_equal (@List.length _)) in E.
    rewrite length_app, bold_span_length in E. discriminate.
  - exact He.
Qed.

(** X5: the bold pattern matches exactly the spans [**inner**] whose
    inner text holds no line terminator and is the shortest that [**]
    follows, the empty one included; the first span of a line is replaced
    by the [strong] element around the inner text as it is, and the
    substitution goes on behind the span. *)
Theorem bold_span_becomes_strong :
  (forall s inner len,
      Regex.boldPattern s = Some (inner, len) ->
      on_one_line inner = true
      /\ exists rest,
          s = bold_span inner ++ rest
          /\ len = List.length (bold_span inner)
          /\ shortest_body (str "**") inner rest = true)
  /\ (forall inner rest,
         on_one_line inner = true ->
         shortest_body (str "**") inner rest = true ->
         Regex.boldPattern (bold_span inner ++ rest)
         = Some (inner, List.length (bold_span inner)))
  /\ (forall pre inner rest,
         on_one_line inner = true ->
         shortest_body (str "**") inner rest = true ->
         unmatched_prefix Regex.boldPattern pre (bold_span inner ++ rest)
         = true ->
         replace_bold (pre ++ bold_span inner ++ rest)
         = pre ++ str "<strong>" ++ inner ++ str "</strong>"
           ++ replace_bold rest).
Proof.
  split; [exact boldPattern_sound|].
  split; [exact boldPattern_complete|].
  intros pre inner rest Hline Hshort Hpre.
  rewrite replace_bold_span by assumption.
  unfold bold_replacer. now repeat rewrite <- app_assoc.
Qed.

Lemma bold_span_becomes_strong_witness :
  (on_one_line (str "a") = true
   /\ exists rest,
       str "**a** and **b**" = bold_span (str "a") ++ rest
       /\ 5 = List.length (bold_span (str "a"))
       /\ shortest_body (str "**") (str "a") rest = true)
  /\ Regex.boldPattern (bold_span [] ++ str "x") = Some ([], 4)
  /\ replace_bold (str "x " ++ bold_span (str "a*b") ++ str " **c")
     = str "x " ++ str "<strong>" ++ str "a*b" ++ str "</strong>"
       ++ str " **c".
Proof.
  split; [|split].
  - exact (proj1 bold_span_becomes_strong (str "**a** and **b**")
                 (str "a") 5 eq_refl).
  - exact (proj1 (proj2 bold_span_becomes_strong) [] (str "x")
                 eq_refl eq_refl).
  - exact (proj2 (proj2 bold_span_becomes_strong)
                 (str "x ") (str "a*b") (str " **c")
                 eq_refl eq_refl eq_refl).
Defined.

(* ================================================================= *)
(** ** Headings and list items *)

Lemma replace_bold_behind (pre t : jsstring) :
  unmatched_prefix Regex.boldPattern pre t = true ->
  replace_bold (pre ++ t) = pre ++ replace_bold t.
Proof. apply replace_all_unmatched_prefix. Qed.

(** X6: a line that starts with [# ], [## ], [### ] or [- ] becomes the
    [h1], [h2], [h3] element or the bullet paragraph around the rest of
    the line, the marker dropped and the bold spans of the rest
    replaced. *)
Theorem marked_line_wraps_rest (t : jsstring) :
  markdown_line (str "# " ++ t)
  = str "<h1 class=" ++ dq ++ str "backlog-h1" ++ dq ++ str ">"
    ++ replace_bold t ++ str "</h1>"
  /\ markdown_line (str "## " ++ t)
     = str "<h2 class=" ++ dq ++ str "backlog-h2" ++ dq ++ str ">"
       ++ replace_bold t ++ str "</h2>"
  /\ markdown_line (str "### " ++ t)
     = str "<h3 class=" ++ dq ++ str "backlog-h3" ++ dq ++ str ">"
       ++ replace_bold t ++ str "</h3>"
  /\ markdown_line (str "- " ++ t)
     = str "<p class=" ++ dq ++ str "backlog-list" ++ dq ++ str ">"
       ++ BULLET ++ str " " ++ replace_bold t ++ str "</p>".
Proof.
  unfold markdown_line. cbv zeta.
  split; [|split; [|split]].
  - rewrite (replace_bold_behind (str "# ") t) by reflexivity. reflexivity.
  - rewrite (replace_bold_behind (str "## ") t) by reflexivity. reflexivity.
  - rewrite (replace_bold_behind (str "### ") t) by reflexivity. reflexivity.
  - rewrite (replace_bold_behind (str "- ") t) by reflexivity. reflexivity.
Qed.

(* ================================================================= *)
(** ** The last stage works line by line *)

Lemma LF_free_app (a b : jsstring) :
  LF_free (a ++ b) = LF_free a && LF_free b.
Proof. apply forallb_app. Qed.

Lemma LF_free_skipn (n : nat) (s : jsstring) :
  LF_free s = true -> LF_free (skipn n s) = true.
Proof.
  unfold LF_free. rewrite !forallb_forall.
  intros H x Hx. apply H.
  rewrite <- (firstn_skipn n s). apply in_or_app. now right.
Qed.

Lemma on_one_line_LF_free (s : jsstring) :
  on_one_line s = true -> LF_free s = true.
Proof.
  unfold on_one_line, LF_free. rewrite !forallb_forall.
  intros Hall x Hx. specialize (Hall x Hx) as H.
  apply negb_true_iff in H. apply negb_true_iff.
  unfold JS.is_line_terminator in H.
  repeat (apply orb_false_iff in H as [H _]).
  rewrite N.eqb_sym. exact H.
Qed.

Section ReplaceKeepsLines.

Variable C : Type.
Variable exec : jsstring -> option (C * nat).
Variable replacer : C -> jsstring.

Hypothesis replacement_LF_free :
  forall s caps len, exec s = Some (caps, len) -> LF_free (replacer caps) = true.

Lemma replace_from_LF_free (s : jsstring) (k : nat) :
  LF_free s = true -> LF_free (replace_from exec replacer s k) = true.
Proof.
  revert k; induction s as [|c s IH]; intros k H; [reflexivity|].
  change (LF_free (c :: s)) with (negb (N.eqb LF c) && LF_free s) in H.
  apply andb_true_iff in H as [Hc Hs].
  cbn [replace_from]. destruct k as [|k]; [|now apply IH].
  destruct (exec (c :: s)) as [[caps len]|] eqn:E.
  - rewrite LF_free_app, (@replacement_LF_free _ _ _ E). now apply IH.
  - change (LF_free (c :: replace_from exec replacer s 0))
      with (negb (N.eqb LF c) && LF_free (replace_from exec replacer s 0)).
    rewrite Hc. now apply IH.
Qed.

End ReplaceKeepsLines.

Lemma replace_bold_LF_free (line : jsstring) :
  LF_free line = true -> LF_free (replace_bold line) = true.
Proof.
  apply replace_from_LF_free.
  intros s inner len H. apply boldPattern_sound in H as [Hline _].
  unfold bold_replacer. rewrite !LF_free_app.
  now rewrite (on_one_line_LF_free _ Hline).
Qed.

Lemma markdown_line_LF_free (line : jsstring) :
  LF_free line = true -> LF_free (markdown_line line) = true.
Proof.
  intros H. pose proof (replace_bold_LF_free line H) as Hb.
  unfold markdown_line, heading, list_item, paragraph, JS.substring.
  cbv zeta.
  repeat match goal with
         | |- context [if ?b then _ else _] => destruct b
         end;
    repeat rewrite LF_free_app;
    try rewrite (LF_free_skipn _ _ Hb);
    try rewrite Hb; reflexivity.
Qed.

Lemma forallb_map_LF_free (f : jsstring -> jsstring) (ls : list jsstring) :
  (forall l, LF_free l = true -> LF_free (f l) = true) ->
  forallb LF_free ls = true -> forallb LF_free (List.map f ls) = true.
Proof.
  intros Hf. induction ls as [|l ls IH]; intros H; [reflexivity|].
  cbn [forallb List.map] in *. apply andb_true_iff in H as [Hl Hls].
  now rewrite Hf, IH.
Qed.

(** X7: the last stage works line by line: the lines of its output are
    the lines of its input, each through the body of the loop, so the
    output has as many lines as the input and no line of the input adds
    or loses a line feed. *)
Theorem parseBasicMarkdown_line_by_line (text : jsstring) :
  JS.split (parseBasicMarkdown text) [LF]
  = List.map markdown_line (JS.split text [LF])
  /\ List.length (JS.split (parseBasicMarkdown text) [LF])
     = List.length (JS.split text [LF]).
Proof.
  assert (H : JS.split (parseBasicMarkdown text) [LF]
              = List.map markdown_line (JS.split text [LF])).
  { unfold parseBasicMarkdown. apply split_join.
    - pose proof (split_nonempty text [LF]) as Hne.
      destruct (JS.split text [LF]); [congruence|discriminate].
    - apply forallb_map_LF_free; [exact markdown_line_LF_free|].
      apply split_LF_free. }
  split; [exact H|]. rewrite H. apply length_map.
Qed.

(* ================================================================= *)
(** ** The output is never empty *)

Lemma markdown_line_nonempty (line : jsstring) : markdown_line line <> [].
Proof.
  unfold markdown_line. cbv zeta.
  destruct (JS.startsWith line (str "# ")); [discriminate|].
  destruct (JS.startsWith line (str "## ")); [discriminate|].
  destruct (JS.startsWith line (str "### ")); [discriminate|].
  destruct (JS.startsWith line (str "- ")); [discriminate|].
  destruct (is_empty (JS.trim (replace_bold line))); [discriminate|].
  destruct (JS.startsWith (replace_bold line) (str "<")) eqn:E;
    [|discriminate].
  cbn [negb]. intros H. rewrite H in E. discriminate.
Qed.

Lemma join_nonempty (x : jsstring) (rest : list jsstring) (sep : jsstring) :
  x <> [] -> JS.join (x :: rest) sep <> [].
Proof.
  intros Hx. destruct rest as [|y rest]; [exact Hx|].
  rewrite join_cons by discriminate.
  intros H. apply app_eq_nil in H as [H _]. contradiction.
Qed.

Lemma parseBasicMarkdown_nonempty (text : jsstring) :
  parseBasicMarkdown text <> [].
Proof.
  unfold parseBasicMarkdown.
  pose proof (split_nonempty text [LF]) as Hne.
  destruct (JS.split text [LF]) as [|l ls]; [congruence|].
  cbn [List.map]. apply join_nonempty, markdown_line_nonempty.
Qed.

(** The converter as the composition of its stages. *)
Lemma parseBacklogWiki_stages (text : jsstring) :
  exists table,
    parseTable text = Returned table
    /\ parseBacklogWiki text
       = Returned (parseBasicMarkdown (parseInlineCode (parseCodeBlock table))).
Proof.
  assert (H : parseTable text
              = Returned (JS.join (result (close_at_end
                   (table_run (JS.split text [LF]) (mkTable false [])))) [LF])).
  { unfold parseTable. now rewrite parseTable_result_run. }
  eexists. split; [exact H|]. unfold parseBacklogWiki. now rewrite H.
Qed.

Lemma parseBacklogWiki_nonempty (text : jsstring) :
  parseBacklogWiki text <> Returned [].
Proof.
  destruct (parseBacklogWiki_stages text) as [t [_ He]].
  rewrite He. intros [= H]. now apply parseBasicMarkdown_nonempty in H.
Qed.

(** X8: the converter never returns the empty string, whatever the
    input; so the two pages, which return the empty string for empty
    content without calling the converter, show the empty string for
    empty content only. *)
Theorem output_never_empty :
  (forall text, parseBacklogWiki text <> Returned [])
  /\ (forall content, formatContent content = Returned [] <-> content = [])
  /\ (forall content, getPreviewHtml content = Returned [] <-> content = []).
Proof.
  split; [exact parseBacklogWiki_nonempty|].
  split; intros content; (split; [|now intros ->]);
    unfold formatContent, getPreviewHtml;
    (destruct content as [|c content]; [reflexivity|]);
    cbn [is_empty]; intros H; now apply parseBacklogWiki_nonempty in H.
Qed.

Lemma output_never_empty_witness :
  formatContent [] = Returned [] /\ (@nil code_unit) = [].
Proof.
  split.
  - exact (proj2 (proj1 (proj2 output_never_empty) []) eq_refl).
  - exact (proj1 (proj2 (proj2 output_never_empty) []) eq_refl).
Defined.

(* ================================================================= *)
(** ** Delimiters without their partner *)

Lemma includes_unfold (s pat : jsstring) :
  includes s pat
  = JS.is_prefix pat s
    || match s with
       | [] => false
       | _ :: s' => includes s' pat
       end.
Proof. destruct s; reflexivity. Qed.

Lemma includes_app (a pat b : jsstring) : includes (a ++ pat ++ b) pat = true.
Proof.
  induction a as [|c a IH]; rewrite includes_unfold.
  - cbn [app]. now rewrite is_prefix_app.
  - cbn [app]. rewrite IH. apply orb_true_r.
Qed.

Lemma includes_tail (c : code_unit) (s pat : jsstring) :
  includes (c :: s) pat = false -> includes s pat = false.
Proof.
  rewrite includes_unfold. intros H. now apply orb_false_iff in H as [_ H].
Qed.

Lemma has_match_needs (C : Type) (exec : jsstring -> option (C * nat))
      (pat : jsstring) :
  (forall s m, exec s = Some m -> includes s pat = true) ->
  forall s, includes s pat = false -> has_match exec s = false.
Proof.
  intros Hexec s. induction s as [|c s IH]; intros H; [reflexivity|].
  cbn [has_match]. destruct (exec (c :: s)) as [m|] eqn:E.
  - apply Hexec in E. congruence.
  - apply IH. now apply includes_tail in H.
Qed.

Lemma codeBlockPattern_includes (s : jsstring)
      (m : (option jsstring * jsstring) * nat) :
  Regex.codeBlockPattern s = Some m ->
  includes s (str "{code") = true /\ includes s (str "{/code}") = true.
Proof.
  destruct m as [[language code] len]. intros H.
  apply codeBlockPattern_sound in H as [_ [rest [-> _]]].
  unfold fence. split.
  - rewrite <- app_assoc. apply (includes_app []).
  - replace ((str "{code" ++ language_part language ++ str "}" ++ code
              ++ str "{/code}") ++ rest)
      with ((str "{code" ++ language_part language ++ str "}" ++ code)
            ++ str "{/code}" ++ rest)
      by now repeat rewrite <- app_assoc.
    apply includes_app.
Qed.

Lemma inlineCodePattern_includes (s : jsstring) (m : jsstring * nat) :
  Regex.inlineCodePattern s = Some m ->
  includes s (str "&code(") = true /\ includes s (str ");") = true.
Proof.
  destruct m as [code len]. intros H.
  apply inlineCodePattern_sound in H as [_ [rest [-> _]]].
  unfold inline_span. split.
  - rewrite <- app_assoc. apply (includes_app []).
  - replace ((str "&code(" ++ code ++ str ");") ++ rest)
      with ((str "&code(" ++ code) ++ str ");" ++ rest)
      by now repeat rewrite <- app_assoc.
    apply includes_app.
Qed.

(** X9: a text that lacks the opening or the closing delimiter of the
    fence, [{code] or [{/code}], leaves the code-block stage as it is,
    and a text that lacks [&code(] or [);] leaves the inline-code stage as
    it is: an unterminated construct is never rewritten in part. *)
Theorem lone_delimiter_left_alone (text : jsstring) :
  (includes text (str "{code") = false -> parseCodeBlock text = text)
  /\ (includes text (str "{/code}") = false -> parseCodeBlock text = text)
  /\ (includes text (str "&code(") = false -> parseInlineCode text = text)
  /\ (includes text (str ");") = false -> parseInlineCode text = text).
Proof.
  unfold parseCodeBlock, parseInlineCode.
  repeat split; intros H; apply replace_all_no_match;
    revert H; apply has_match_needs; intros s m Hm.
  - now apply codeBlockPattern_includes in Hm.
  - now apply codeBlockPattern_includes in Hm.
  - now apply inlineCodePattern_includes in Hm.
  - now apply inlineCodePattern_includes in Hm.
Qed.

Lemma lone_delimiter_left_alone_witness :
  parseCodeBlock (str "{code:js}x=1 &code(y") = str "{code:js}x=1 &code(y"
  /\ parseInlineCode (str "{code:js}x=1 &code(y") = str "{code:js}x=1 &code(y"
  /\ parseCodeBlock (str "x{/code} y);") = str "x{/code} y);"
  /\ parseInlineCode (str "x{/code} y);") = str "x{/code} y);".
Proof.
  split; [|split; [|split]].
  - exact (proj1 (proj2 (lone_delimiter_left_alone
                           (str "{code:js}x=1 &code(y"))) eq_refl).
  - exact (proj2 (proj2 (proj2 (lone_delimiter_left_alone
                                  (str "{code:js}x=1 &code(y")))) eq_refl).
  - exact (proj1 (lone_delimiter_left_alone (str "x{/code} y);")) eq_refl).
  - exact (proj1 (proj2 (proj2 (lone_delimiter_left_alone
                                  (str "x{/code} y);")))) eq_refl).
Defined.

(* ================================================================= *)
(** ** Rows written from cells *)

Lemma split_from_skip (sep a rest cur : jsstring) :
  JS.split_from sep (a ++ rest) (List.length a) cur
  = JS.split_from sep rest 0 cur.
Proof.
  induction a as [|x a IH]; [now destruct rest|]. exact IH.
Qed.

Section SplitOnBars.

(** The rest of a separator that starts with the vertical bar. *)
Variable sep' : jsstring.

Lemma split_from_bar_free (c rest cur : jsstring) :
  free_of BAR c = true ->
  JS.split_from (BAR :: sep') (c ++ rest) 0 cur
  = JS.split_from (BAR :: sep') rest 0 (cur ++ c).
Proof.
  revert cur; induction c as [|x c IH]; intros cur H.
  - now rewrite app_nil_r.
  - unfold free_of in H. cbn [forallb] in H.
    apply andb_true_iff in H as [Hx Hc]. apply negb_true_iff in Hx.
    cbn [app JS.split_from JS.is_prefix].
    rewrite N.eqb_sym, Hx. cbn [andb].
    rewrite IH by exact Hc. now rewrite <- app_assoc.
Qed.

Lemma split_from_sep (rest cur : jsstring) :
  JS.split_from (BAR :: sep') ((BAR :: sep') ++ rest) 0 cur
  = cur :: JS.split_from (BAR :: sep') rest 0 [].
Proof.
  pose proof (is_prefix_app (BAR :: sep') rest) as Hp.
  cbn [app] in *. cbn [JS.split_from]. rewrite Hp. f_equal.
  cbn [List.length].
  replace (S (List.length sep') - 1) with (List.length sep') by lia.
  apply split_from_skip.
Qed.

Lemma split_join_cells (c : jsstring) (cs : list jsstring) (cur : jsstring) :
  forallb (free_of BAR) (c :: cs) = true ->
  JS.split_from (BAR :: sep') (JS.join (c :: cs) (BAR :: sep')) 0 cur
  = (cur ++ c) :: cs.
Proof.
  revert c cur; induction cs as [|d cs IH]; intros c cur H;
    cbn [forallb] in H; apply andb_true_iff in H as [Hc Hcs].
  - cbn [JS.join].
    pose proof (split_from_bar_free c [] cur Hc) as E.
    rewrite app_nil_r in E. rewrite E. reflexivity.
  - rewrite join_cons by discriminate.
    rewrite split_from_bar_free by exact Hc.
    rewrite split_from_sep. f_equal.
    now rewrite IH.
Qed.

End SplitOnBars.

Lemma slice_between (p body q : jsstring) :
  q <> [] ->
  JS.slice (p ++ body ++ q) (Z.of_nat (List.length p))
           (- Z.of_nat (List.length q))
  = body.
Proof.
  intros Hq. unfold JS.slice.
  assert (Hlen : 0 < List.length q) by (destruct q; [congruence|cbn; lia]).
  rewrite !length_app.
  replace (Z.of_nat (List.length p) <? 0)%Z with false
    by (symmetry; apply Z.ltb_ge; lia).
  replace (- Z.of_nat (List.length q) <? 0)%Z with true
    by (symmetry; apply Z.ltb_lt; lia).
  replace (Z.to_nat (Z.min (Z.of_nat (List.length p))
                           (Z.of_nat (List.length p + (List.length body
                                                       + List.length q)))))
    with (List.length p) by lia.
  rewrite skipn_length_app.
  replace (Z.to_nat _) with (List.length body) by lia.
  rewrite firstn_app, Nat.sub_diag, firstn_all. cbn [firstn].
  apply app_nil_r.
Qed.

Lemma endsWith_app (a p : jsstring) : JS.endsWith (a ++ p) p = true.
Proof.
  unfold JS.endsWith. rewrite rev_app_distr. apply is_prefix_app.
Qed.

Lemma header_row_shape (cells : list jsstring) :
  JS.trim (header_row cells) = header_row cells
  /\ is_header_row (header_row cells) = true.
Proof.
  unfold header_row. split.
  - apply trim_fixed. unfold no_outer_space.
    rewrite app_assoc, rev_app_distr. reflexivity.
  - unfold is_header_row. rewrite app_assoc, endsWith_app.
    rewrite <- app_assoc. unfold JS.startsWith. now rewrite is_prefix_app.
Qed.

Lemma header_cells_row (cells : list jsstring) :
  cells <> [] ->
  forallb (free_of BAR) cells = true ->
  header_cells (header_row cells) = cells.
Proof.
  intros Hne Hfree. unfold header_cells, header_row.
  change 2%Z with (Z.of_nat (List.length (str "||"))).
  change (-2)%Z with (- Z.of_nat (List.length (str "||")))%Z.
  rewrite slice_between by discriminate.
  destruct cells as [|c cs]; [congruence|].
  unfold JS.split.
  exact (split_join_cells (str "|") c cs [] Hfree).
Qed.

Lemma data_row_shape (cells : list jsstring) :
  is_header_row (data_row cells) = false ->
  JS.trim (data_row cells) = data_row cells
  /\ is_data_row (data_row cells) = true.
Proof.
  intros Hh. unfold data_row in *. split.
  - apply trim_fixed. unfold no_outer_space.
    rewrite app_assoc, rev_app_distr. reflexivity.
  - unfold is_data_row. rewrite Hh. cbn [negb andb].
    rewrite app_assoc, endsWith_app.
    rewrite <- app_assoc. unfold JS.startsWith. now rewrite is_prefix_app.
Qed.

Lemma data_cells_row (cells : list jsstring) :
  cells <> [] ->
  forallb (free_of BAR) cells = true ->
  data_cells (data_row cells) = cells.
Proof.
  intros Hne Hfree. unfold data_cells, data_row.
  change 1%Z with (Z.of_nat (List.length (str "|"))).
  change (-1)%Z with (- Z.of_nat (List.length (str "|")))%Z.
  rewrite slice_between by discriminate.
  destruct cells as [|c cs]; [congruence|].
  unfold JS.split.
  exact (split_join_cells [] c cs [] Hfree).
Qed.

(** X10: a header row written from a non-empty list of cells without
    vertical bars, [||c1||...||cn||], is a header row as it stands (the
    loop's trim leaves it alone), its cells are read back exactly, empty
    ones included, and the loop pushes one [th] per cell, in order. *)
Theorem header_row_reads_cells (cells : list jsstring) :
  cells <> [] ->
  forallb (free_of BAR) cells = true ->
  JS.trim (header_row cells) = header_row cells
  /\ is_header_row (header_row cells) = true
  /\ header_cells (header_row cells) = cells
  /\ forall st,
      table_body (header_row cells) st
      = mkTable true
          (result st
           ++ (if inTable st then [] else [TABLE_OPEN; THEAD_OPEN])
           ++ [TR_OPEN] ++ List.map th cells
           ++ [TR_CLOSE; THEAD_CLOSE; TBODY_OPEN]).
Proof.
  intros Hne Hfree.
  destruct (header_row_shape cells) as [Htrim Hrow].
  pose proof (header_cells_row Hne Hfree) as Hcells.
  repeat split; try assumption.
  intros st. rewrite table_body_header by assumption.
  unfold header_block. now rewrite Hcells.
Qed.

Lemma header_row_reads_cells_witness :
  JS.trim (str "||A||||B C||") = str "||A||||B C||"
  /\ is_header_row (str "||A||||B C||") = true
  /\ header_cells (str "||A||||B C||") = [str "A"; []; str "B C"]
  /\ forall st,
      table_body (str "||A||||B C||") st
      = mkTable true
          (result st
           ++ (if inTable st then [] else [TABLE_OPEN; THEAD_OPEN])
           ++ [TR_OPEN] ++ List.map th [str "A"; []; str "B C"]
           ++ [TR_CLOSE; THEAD_CLOSE; TBODY_OPEN]).
Proof.
  apply (@header_row_reads_cells [str "A"; []; str "B C"]);
    [discriminate|reflexivity].
Defined.

(** X11: a data row written from a non-empty list of cells without
    vertical bars, [|c1|...|cn|], that is not taken for a header row, is a
    data row as it stands, its cells are read back exactly, and the loop
    pushes one [td] per cell, in order. *)
Theorem data_row_reads_cells (cells : list jsstring) :
  cells <> [] ->
  forallb (free_of BAR) cells = true ->
  is_header_row (data_row cells) = false ->
  JS.trim (data_row cells) = data_row cells
  /\ is_data_row (data_row cells) = true
  /\ data_cells (data_row cells) = cells
  /\ forall st,
      table_body (data_row cells) st
      = mkTable true
          (result st
           ++ (if inTable st then [] else [TABLE_OPEN; TBODY_OPEN])
           ++ [TR_OPEN] ++ List.map td cells ++ [TR_CLOSE]).
Proof.
  intros Hne Hfree Hh.
  destruct (data_row_shape cells Hh) as [Htrim Hrow].
  pose proof (data_cells_row Hne Hfree) as Hcells.
  repeat split; try assumption.
  intros st. rewrite table_body_data by assumption.
  unfold data_block. now rewrite Hcells.
Qed.

Lemma data_row_reads_cells_witness :
  JS.trim (str "||1| 2 |") = str "||1| 2 |"
  /\ is_data_row (str "||1| 2 |") = true
  /\ data_cells (str "||1| 2 |") = [[]; str "1"; str " 2 "]
  /\ forall st,
      table_body (str "||1| 2 |") st
      = mkTable true
          (result st
           ++ (if inTable st then [] else [TABLE_OPEN; TBODY_OPEN])
           ++ [TR_OPEN] ++ List.map td [[]; str "1"; str " 2 "]
           ++ [TR_CLOSE]).
Proof.
  apply (@data_row_reads_cells [[]; str "1"; str " 2 "]);
    [discriminate|reflexivity|reflexivity].
Defined.

(* ================================================================= *)
(** ** A block of rows inside a text *)





(* ================================================================= *)
(** ** Inserting a template *)

Lemma substring_range_from_0 (s : jsstring) (n : nat) :
  substring_range s 0 n = firstn n s.
Proof.
  unfold substring_range. cbv zeta.
  rewrite Nat.min_0_l, Nat.max_0_l, Nat.min_0_l, Nat.sub_0_r.
  cbn [skipn].
  destruct (Nat.le_ge_cases n (List.length s)) as [H|H].
  - now rewrite Nat.min_l.
  - rewrite Nat.min_r by exact H.
    now rewrite firstn_all, firstn_all2.
Qed.

(** The two line feeds put in front of the template, or nothing. *)
Lemma insertTemplate_parts (key : templateType) (content : jsstring)
      (area : selection) (ins : insertion) :
  insertTemplate key content (Some area) = Some ins ->
  exists prefix suffix,
    prefix
    = (if (0 <? selectionStart area)
          && index_differs content (selectionStart area - 1) LF
       then [LF; LF] else [])
    /\ suffix
       = (if (selectionEnd area <? List.length content)
             && index_differs content (selectionEnd area) LF
          then [LF; LF] else [])
    /\ newContent ins
       = firstn (selectionStart area) content
         ++ prefix ++ getWikiTemplates key ++ suffix
         ++ skipn (selectionEnd area) content
    /\ newPosition ins
       = selectionStart area + List.length prefix
         + List.length (getWikiTemplates key) + List.length suffix.
Proof.
  unfold insertTemplate. cbv zeta. intros [= <-].
  eexists. eexists. split; [reflexivity|]. split; [reflexivity|].
  cbn [newContent newPosition]. rewrite substring_range_from_0.
  split; reflexivity.
Qed.

Lemma two_LF_or_none (b : bool) :
  (if b then [LF; LF] else []) = [] \/ (if b then [LF; LF] else []) = [LF; LF].
Proof. destruct b; auto. Qed.

(** X13: with the cursor or selection inside the content, the new
    content is the text in front of the selection, then nothing or two
    line feeds, the template, nothing or two line feeds, and the text
    behind the selection: the selected text is replaced, all the rest
    kept.  The new cursor position is right behind the inserted text: it
    cuts the new content into what was inserted with the text in front,
    and the kept text behind. *)
Theorem insertTemplate_keeps_surroundings (key : templateType)
        (content : jsstring) (area : selection) (ins : insertion) :
  selectionStart area <= List.length content ->
  insertTemplate key content (Some area) = Some ins ->
  exists prefix suffix,
    (prefix = [] \/ prefix = [LF; LF])
    /\ (suffix = [] \/ suffix = [LF; LF])
    /\ newContent ins
       = firstn (selectionStart area) content
         ++ prefix ++ getWikiTemplates key ++ suffix
         ++ skipn (selectionEnd area) content
    /\ firstn (newPosition ins) (newContent ins)
       = firstn (selectionStart area) content
         ++ prefix ++ getWikiTemplates key ++ suffix
    /\ skipn (newPosition ins) (newContent ins)
       = skipn (selectionEnd area) content.
Proof.
  intros Hstart H.
  apply insertTemplate_parts in H
    as [prefix [suffix [Hp [Hs [Hc Hn]]]]].
  exists prefix, suffix.
  split; [rewrite Hp; apply two_LF_or_none|].
  split; [rewrite Hs; apply two_LF_or_none|].
  split; [exact Hc|].
  assert (Hlen : newPosition ins
                 = List.length (firstn (selectionStart area) content
                                ++ prefix ++ getWikiTemplates key ++ suffix)).
  { rewrite Hn, !length_app, length_firstn. lia. }
  rewrite Hc, Hlen.
  replace (firstn (selectionStart area) content
           ++ prefix ++ getWikiTemplates key ++ suffix
           ++ skipn (selectionEnd area) content)
    with ((firstn (selectionStart area) content
           ++ prefix ++ getWikiTemplates key ++ suffix)
          ++ skipn (selectionEnd area) content)
    by now repeat rewrite <- app_assoc.
  split.
  - rewrite firstn_app, Nat.sub_diag, firstn_all. cbn [firstn].
    apply app_nil_r.
  - apply skipn_length_app.
Qed.

Lemma insertTemplate_keeps_surroundings_witness :
  exists prefix suffix,
    (prefix = [] \/ prefix = [LF; LF])
    /\ (suffix = [] \/ suffix = [LF; LF])
    /\ str "ab" ++ [LF; LF] ++ template_inlineCode ++ [LF; LF] ++ str "ef"
       = str "ab" ++ prefix ++ getWikiTemplates key_inlineCode ++ suffix
         ++ str "ef"
    /\ firstn 51 (str "ab" ++ [LF; LF] ++ template_inlineCode ++ [LF; LF]
                  ++ str "ef")
       = str "ab" ++ prefix ++ getWikiTemplates key_inlineCode ++ suffix
    /\ skipn 51 (str "ab" ++ [LF; LF] ++ template_inlineCode ++ [LF; LF]
                 ++ str "ef")
       = str "ef".
Proof.
  apply (@insertTemplate_keeps_surroundings key_inlineCode (str "abcdef")
           (mkSelection 2 4)
           (mkInsertion
              (str "ab" ++ [LF; LF] ++ template_inlineCode ++ [LF; LF]
               ++ str "ef")
              51));
    [vm_compute; lia|reflexivity].
Defined.

Lemma firstn_ends_with (s : jsstring) (n : nat) (x : code_unit) :
  nth_error s n = Some x -> exists b, firstn (S n) s = b ++ [x].
Proof.
  intros H. apply nth_error_split in H as [l1 [l2 [-> <-]]].
  exists l1.
  replace (l1 ++ x :: l2) with ((l1 ++ [x]) ++ l2)
    by now rewrite <- app_assoc.
  replace (S (List.length l1)) with (List.length (l1 ++ [x]))
    by (rewrite length_app; cbn; lia).
  rewrite firstn_app, Nat.sub_diag, firstn_all. cbn [firstn].
  apply app_nil_r.
Qed.

Lemma skipn_starts_with (s : jsstring) (n : nat) (x : code_unit) :
  nth_error s n = Some x -> exists a, skipn n s = x :: a.
Proof.
  intros H. apply nth_error_split in H as [l1 [l2 [-> <-]]].
  exists l2. apply skipn_length_app.
Qed.

Lemma index_differs_false (s : jsstring) (i : nat) (c : code_unit) :
  index_differs s i c = false -> nth_error s i = Some c.
Proof.
  unfold index_differs. destruct (nth_error s i) as [x|]; [|discriminate].
  intros H. apply negb_false_iff, N.eqb_eq in H. now subst.
Qed.

(** X14: in the new content the template stands on lines of its own:
    what is in front of it is empty or ends with a line feed, and what is
    behind it is empty or starts with a line feed. *)
Theorem insertTemplate_on_own_lines (key : templateType)
        (content : jsstring) (area : selection) (ins : insertion) :
  selectionStart area <= List.length content ->
  insertTemplate key content (Some area) = Some ins ->
  exists front back,
    newContent ins = front ++ getWikiTemplates key ++ back
    /\ firstn (selectionStart area) front
       = firstn (selectionStart area) content
    /\ (front = [] \/ exists b, front = b ++ [LF])
    /\ (back = [] \/ exists a, back = LF :: a).
Proof.
  intros Hstart H.
  apply insertTemplate_parts in H
    as [prefix [suffix [Hp [Hs [Hc Hn]]]]].
  exists (firstn (selectionStart area) content ++ prefix),
         (suffix ++ skipn (selectionEnd area) content).
  split; [rewrite Hc; now repeat rewrite <- app_assoc|].
  split.
  { rewrite firstn_app, length_firstn.
    replace (selectionStart area
             - Nat.min (selectionStart area) (List.length content))
      with 0 by lia.
    cbn [firstn]. rewrite app_nil_r, firstn_firstn.
    now rewrite Nat.min_id. }
  split.
  - destruct (selectionStart area) as [|n] eqn:En.
    + left. rewrite Hp. reflexivity.
    + right. change (0 <? S n) with true in Hp. cbn [andb] in Hp.
      replace (S n - 1) with n in Hp by lia.
      destruct (index_differs content n LF) eqn:Ed.
      * exists (firstn (S n) content ++ [LF]). rewrite Hp.
        now rewrite <- app_assoc.
      * apply index_differs_false, firstn_ends_with in Ed as [b Hb].
        exists b. rewrite Hp, app_nil_r. exact Hb.
  - destruct (selectionEnd area <? List.length content) eqn:El.
    + cbn [andb] in Hs.
      destruct (index_differs content (selectionEnd area) LF) eqn:Ed.
      * right. rewrite Hs. eexists. reflexivity.
      * right. apply index_differs_false, skipn_starts_with in Ed as [a Ha].
        exists a. rewrite Hs. exact Ha.
    + left. cbn [andb] in Hs. rewrite Hs. cbn [app].
      apply skipn_all2. apply Nat.ltb_ge in El. exact El.
Qed.

Lemma insertTemplate_on_own_lines_witness :
  exists front back,
    str "ab" ++ [LF] ++ template_inlineCode ++ [LF; LF] ++ str "ef"
    = front ++ getWikiTemplates key_inlineCode ++ back
    /\ firstn 3 front = str "ab" ++ [LF]
    /\ (front = [] \/ exists b, front = b ++ [LF])
    /\ (back = [] \/ exists a, back = LF :: a).
Proof.
  apply (@insertTemplate_on_own_lines key_inlineCode
           (str "ab" ++ [LF] ++ str "cdef") (mkSelection 3 5)
           (mkInsertion
              (str "ab" ++ [LF] ++ template_inlineCode ++ [LF; LF] ++ str "ef")
              50));
    [vm_compute; lia|reflexivity].
Defined.

(* ================================================================= *)
(** ** The converter on text without tables and code *)

(** X15: for a text without table rows, fenced code blocks and inline
    code spans (judged on the trimmed lines, as the stages see them) the
    converter works line by line: its output is the lines of the input,
    each trimmed and then put through the body of the last stage's loop,
    joined by line feeds. *)
Theorem converter_line_by_line (text : jsstring) :
  all_lines not_row text = true ->
  has_match Regex.codeBlockPattern (JS.join (trimmed_lines text) [LF]) = false ->
  has_match Regex.inlineCodePattern (JS.join (trimmed_lines text) [LF]) = false ->
  parseBacklogWiki text
  = Returned (JS.join (List.map markdown_line (trimmed_lines text)) [LF]).
Proof.
  intros Hrows Hcode Hinline.
  unfold parseBacklogWiki.
  rewrite parseTable_no_rows by assumption.
  cbn [bind]. f_equal.
  unfold parseCodeBlock. rewrite replace_all_no_match by assumption.
  unfold parseInlineCode. rewrite replace_all_no_match by assumption.
  unfold parseBasicMarkdown.
  now rewrite split_join
    by (apply trimmed_lines_nonempty || apply trimmed_lines_LF_free).
Qed.

Lemma converter_line_by_line_witness :
  parseBacklogWiki (str " # Top " ++ [LF] ++ str "- a **b**" ++ [LF]
                    ++ str "#### deep")
  = Returned (heading (str "1") (str "Top") ++ [LF]
              ++ list_item (str "a <strong>b</strong>") ++ [LF]
              ++ paragraph (str "#### deep")).
Proof.
  exact (@converter_line_by_line
           (str " # Top " ++ [LF] ++ str "- a **b**" ++ [LF]
            ++ str "#### deep")
           eq_refl eq_refl eq_refl).
Defined.

(* ================================================================= *)
(** ** Escaped text and the inline-code stage *)

Lemma amp_guarded_no_inline (s : jsstring) :
  amp_guarded s = true -> includes s (str "&code(") = false.
Proof.
  induction s as [|x s IH]; intros H; [reflexivity|].
  cbn [amp_guarded] in H. apply andb_true_iff in H as [Hx Hs].
  rewrite includes_unfold, (IH Hs), orb_false_r.
  change (JS.is_prefix (str "&code(") (x :: s))
    with (N.eqb 38 x && JS.is_prefix (str "code(") s).
  rewrite N.eqb_sym. destruct (N.eqb x 38); [|reflexivity].
  destruct s as [|d s]; [discriminate|].
  change (JS.is_prefix (str "code(") (d :: s))
    with (N.eqb 99 d && JS.is_prefix (str "ode(") s).
  rewrite N.eqb_sym. apply negb_true_iff in Hx. now rewrite Hx.
Qed.

Lemma amp_guarded_free (a r : jsstring) :
  free_of 38%N a = true -> amp_guarded (a ++ r) = amp_guarded r.
Proof.
  induction a as [|x a IH]; intros H; [reflexivity|].
  unfold free_of in H. cbn [forallb] in H.
  apply andb_true_iff in H as [Hx Ha]. apply negb_true_iff in Hx.
  cbn [app amp_guarded]. rewrite Hx. cbn [andb]. now apply IH.
Qed.

Lemma amp_guarded_entity (x : code_unit) (r : jsstring) :
  amp_guarded (entity x ++ r) = amp_guarded r.
Proof.
  unfold entity.
  destruct (N.eqb x 38) eqn:E1; [reflexivity|].
  destruct (N.eqb x 160) eqn:E2; [reflexivity|].
  destruct (N.eqb x 60) eqn:E3; [reflexivity|].
  destruct (N.eqb x 62) eqn:E4; [reflexivity|].
  cbn [app amp_guarded]. now rewrite E1.
Qed.

Lemma amp_guarded_escaped (text r : jsstring) :
  amp_guarded (escapeHtml text ++ r) = amp_guarded r.
Proof.
  rewrite escapeHtml_flat_map.
  induction text as [|x text IH]; [reflexivity|].
  cbn [flat_map]. rewrite <- app_assoc, amp_guarded_entity. exact IH.
Qed.

Lemma word_amp_free (l : jsstring) :
  forallb JS.is_word l = true -> free_of 38%N l = true.
Proof.
  unfold free_of. rewrite !forallb_forall. intros H x Hx.
  specialize (H x Hx). apply negb_true_iff.
  destruct (N.eqb x 38) eqn:E; [|reflexivity].
  apply N.eqb_eq in E. subst x. discriminate.
Qed.

Lemma language_class_amp_free (language : option jsstring) :
  is_language language = true ->
  free_of 38%N (language_class language) = true.
Proof.
  destruct language as [l|]; [|reflexivity].
  cbn [is_language language_class]. intros H.
  apply andb_true_iff in H as [_ H]. now apply word_amp_free.
Qed.

Lemma code_block_amp_guarded (language : option jsstring) (body : jsstring) :
  is_language language = true ->
  amp_guarded (code_block (language_class language) (escapeHtml body)) = true.
Proof.
  intros H. unfold code_block.
  repeat rewrite <- app_assoc.
  repeat (rewrite amp_guarded_free by reflexivity).
  rewrite amp_guarded_free by now apply language_class_amp_free.
  repeat (rewrite amp_guarded_free by reflexivity).
  now rewrite amp_guarded_escaped.
Qed.

Lemma parseInlineCode_amp_guarded (s : jsstring) :
  amp_guarded s = true -> parseInlineCode s = s.
Proof.
  intros H. unfold parseInlineCode. apply replace_all_no_match.
  apply amp_guarded_no_inline in H. revert H.
  apply has_match_needs. intros t m Hm.
  now apply inlineCodePattern_includes in Hm.
Qed.

Lemma parseCodeBlock_single_fence (language : option jsstring)
      (code : jsstring) :
  is_language language = true ->
  shortest_body (str "{/code}") code [] = true ->
  parseCodeBlock (fence language code)
  = code_block (language_class language) (escapeHtml (JS.trim code)).
Proof.
  intros Hlang Hshort.
  pose proof (@parseCodeBlock_fence [] language code [] Hlang Hshort eq_refl)
    as H.
  cbn [app] in H. rewrite !app_nil_r in H. exact H.
Qed.

Lemma amp_guarded_block_tail (language : option jsstring)
      (body r : jsstring) :
  is_language language = true ->
  amp_guarded (code_block (language_class language) (escapeHtml body) ++ r)
  = amp_guarded r.
Proof.
  intros H. unfold code_block.
  repeat rewrite <- app_assoc.
  repeat (rewrite amp_guarded_free by reflexivity).
  rewrite amp_guarded_free by now apply language_class_amp_free.
  repeat (rewrite amp_guarded_free by reflexivity).
  rewrite amp_guarded_escaped.
  now rewrite amp_guarded_free by reflexivity.
Qed.

Lemma parseInlineCode_around_block (pre post : jsstring)
      (language : option jsstring) (body : jsstring) :
  is_language language = true ->
  free_of 38%N pre = true ->
  free_of 38%N post = true ->
  parseInlineCode
    (pre ++ code_block (language_class language) (escapeHtml body) ++ post)
  = pre ++ code_block (language_class language) (escapeHtml body) ++ post.
Proof.
  intros Hlang Hpre Hpost. apply parseInlineCode_amp_guarded.
  rewrite amp_guarded_free by exact Hpre.
  rewrite amp_guarded_block_tail by exact Hlang.
  rewrite <- (app_nil_r post). now rewrite amp_guarded_free.
Qed.

(** X16: the inline-code stage returns as it is

    - whatever [escapeHtml] returns: there every ampersand starts an
      entity, so no [&code(] is left;
    - a text made of an emitted code block with text before and behind
      it that holds no ampersand;
    - hence what the code-block stage makes of a text that is exactly
      one fence, also when the body of the fence holds an inline span.

    An emitted block is not protected from an inline span written around
    the fence: for ["&code({code}x{/code});"] the block becomes the body
    of the span and is escaped once more. *)
Theorem escaped_code_passes_inline_stage :
  (forall text, parseInlineCode (escapeHtml text) = escapeHtml text)
  /\ (forall pre post language body,
         is_language language = true ->
         free_of 38%N pre = true ->
         free_of 38%N post = true ->
         parseInlineCode
           (pre
            ++ (str "<pre class=" ++ dq ++ str "backlog-code-block" ++ dq
               ++ str "><code class=" ++ dq ++ str "language-"
               ++ match language with
                  | Some lang => lang
                  | None => str "text"
                  end
               ++ dq ++ str ">" ++ escapeHtml body
               ++ str "</code></pre>")
            ++ post)
         = pre
           ++ (str "<pre class=" ++ dq ++ str "backlog-code-block" ++ dq
               ++ str "><code class=" ++ dq ++ str "language-"
               ++ match language with
                  | Some lang => lang
                  | None => str "text"
                  end
               ++ dq ++ str ">" ++ escapeHtml body
               ++ str "</code></pre>")
           ++ post)
  /\ (forall language code,
         is_language language = true ->
         shortest_body (str "{/code}") code [] = true ->
         parseInlineCode (parseCodeBlock (fence language code))
         = str "<pre class=" ++ dq ++ str "backlog-code-block" ++ dq
           ++ str "><code class=" ++ dq ++ str "language-"
           ++ match language with
                 | Some lang => lang
                 | None => str "text"
                 end
           ++ dq ++ str ">" ++ escapeHtml (JS.trim code)
           ++ str "</code></pre>")
  /\ (parseCodeBlock span_around_fence
      = str "&code("
        ++ (str "<pre class=" ++ dq ++ str "backlog-code-block" ++ dq
            ++ str "><code class=" ++ dq ++ str "language-"
            ++ str "text"
            ++ dq ++ str ">" ++ str "x"
            ++ str "</code></pre>")
        ++ str ");"
      /\ parseInlineCode (parseCodeBlock span_around_fence)
         = str "<code class=" ++ dq ++ str "backlog-inline-code" ++ dq
           ++ str ">"
           ++ escapeHtml
                (str "<pre class=" ++ dq ++ str "backlog-code-block" ++ dq
                    ++ str "><code class=" ++ dq ++ str "language-"
                    ++ str "text"
                    ++ dq ++ str ">" ++ str "x"
                    ++ str "</code></pre>")
           ++ str "</code>").
Proof.
  split; [|split; [|split]].
  - intros text. apply parseInlineCode_amp_guarded.
    rewrite <- (app_nil_r (escapeHtml text)). apply amp_guarded_escaped.
  - intros pre post language body Hlang Hpre Hpost.
    pose proof (@parseInlineCode_around_block pre post language body
                  Hlang Hpre Hpost) as H.
    unfold code_block in H. destruct language as [lang|];
      cbn [language_class] in H; repeat rewrite <- app_assoc in *;
      exact H.
  - intros language code Hlang Hshort.
    rewrite parseCodeBlock_single_fence by assumption.
    rewrite (@parseInlineCode_amp_guarded _
               (@code_block_amp_guarded language (JS.trim code) Hlang)).
    unfold code_block. destruct language as [lang|];
      cbn [language_class]; now repeat rewrite <- app_assoc.
  - split; reflexivity.
Qed.

Lemma escaped_code_passes_inline_stage_witness :
  parseInlineCode
    (str "a; " ++ (str "<pre class=" ++ dq ++ str "backlog-code-block" ++ dq
        ++ str "><code class=" ++ dq ++ str "language-"
        ++ str "js"
        ++ dq ++ str ">" ++ escapeHtml (str "&code(x);")
        ++ str "</code></pre>") ++ str " (b)")
  = str "a; " ++ (str "<pre class=" ++ dq ++ str "backlog-code-block" ++ dq
        ++ str "><code class=" ++ dq ++ str "language-"
        ++ str "js"
        ++ dq ++ str ">" ++ escapeHtml (str "&code(x);")
        ++ str "</code></pre>") ++ str " (b)"
  /\ parseInlineCode (parseCodeBlock (fence None (str " &code(x); ")))
     = str "<pre class=" ++ dq ++ str "backlog-code-block" ++ dq
       ++ str "><code class=" ++ dq ++ str "language-"
       ++ str "text"
       ++ dq ++ str ">" ++ str "&amp;code(x);"
       ++ str "</code></pre>".
Proof.
  split.
  - exact (proj1 (proj2 escaped_code_passes_inline_stage)
                 (str "a; ") (str " (b)") (Some (str "js"))
                 (str "&code(x);") eq_refl eq_refl eq_refl).
  - exact (proj1 (proj2 (proj2 escaped_code_passes_inline_stage))
                 None (str " &code(x); ") eq_refl eq_refl).
Defined.

(* ================================================================= *)
(** ** The converter reads trimmed lines only *)

Lemma table_run_trimmed (lines : list jsstring) (st : table_state) :
  table_run lines st
  = fold_left (fun st line => table_body line st) (List.map JS.trim lines) st.
Proof.
  unfold table_run. revert st.
  induction lines as [|l lines IH]; intros st; [reflexivity|].
  cbn [fold_left List.map]. apply IH.
Qed.

Lemma parseBacklogWiki_trimmed_lines (text1 text2 : jsstring) :
  trimmed_lines text1 = trimmed_lines text2 ->
  parseBacklogWiki text1 = parseBacklogWiki text2.
Proof.
  unfold trimmed_lines. intros H.
  unfold parseBacklogWiki, parseTable.
  now rewrite !parseTable_result_run, !table_run_trimmed, H.
Qed.

(** The carriage return. *)
Lemma trim_drops_CR (l : jsstring) : JS.trim (l ++ [13%N]) = JS.trim l.
Proof.
  unfold JS.trim, JS.trimEnd, JS.trimStart.
  induction l as [|c l IH]; [reflexivity|].
  cbn [app JS.drop_while].
  destruct (JS.is_white_space c) eqn:E; [exact IH|].
  change (c :: l ++ [13%N]) with ((c :: l) ++ [13%N]).
  now rewrite rev_app_distr.
Qed.

Lemma LF_free_CR (l : jsstring) :
  LF_free l = true -> LF_free (l ++ [13%N]) = true.
Proof. intros H. rewrite LF_free_app, H. reflexivity. Qed.

Lemma trimmed_lines_CRLF (ls : list jsstring) :
  ls <> [] ->
  forallb LF_free ls = true ->
  trimmed_lines (JS.join ls [13%N; LF]) = List.map JS.trim ls.
Proof.
  unfold trimmed_lines, JS.split.
  induction ls as [|l ls IH]; intros Hne Hfree; [congruence|].
  cbn [forallb] in Hfree. apply andb_true_iff in Hfree as [Hl Hls].
  destruct ls as [|m ls].
  - cbn [JS.join List.map].
    pose proof (split_from_LF_free_prefix l [] [] Hl) as E.
    rewrite app_nil_r in E. rewrite E. reflexivity.
  - rewrite join_cons by discriminate.
    cbn [app].
    match goal with
    | |- context [JS.split_from [LF] ?t 0 []] =>
        replace t
          with ((l ++ [13%N]) ++ LF :: JS.join (m :: ls) [13%N; LF])
          by now rewrite <- app_assoc
    end.
    rewrite (@split_from_LF_free_prefix (l ++ [13%N]))
      by now apply LF_free_CR.
    rewrite split_from_LF_cons, N.eqb_refl.
    cbn [app List.map]. rewrite trim_drops_CR.
    f_equal. apply IH; [discriminate|exact Hls].
Qed.

Lemma trimmed_lines_LF (ls : list jsstring) :
  ls <> [] ->
  forallb LF_free ls = true ->
  trimmed_lines (JS.join ls [LF]) = List.map JS.trim ls.
Proof.
  intros Hne Hfree. unfold trimmed_lines. now rewrite split_join.
Qed.

(** X17: the converter reads the trimmed lines of its input and nothing
    else: two texts with the same trimmed lines get the same output.  So
    lines ended by carriage return and line feed give the output of the
    same lines ended by line feed alone. *)
Theorem converter_reads_trimmed_lines :
  (forall text1 text2,
      trimmed_lines text1 = trimmed_lines text2 ->
      parseBacklogWiki text1 = parseBacklogWiki text2)
  /\ (forall ls,
         ls <> [] ->
         forallb LF_free ls = true ->
         parseBacklogWiki (JS.join ls [13%N; LF])
         = parseBacklogWiki (JS.join ls [LF])).
Proof.
  split; [exact parseBacklogWiki_trimmed_lines|].
  intros ls Hne Hfree. apply parseBacklogWiki_trimmed_lines.
  now rewrite trimmed_lines_CRLF, trimmed_lines_LF.
Qed.

Lemma converter_reads_trimmed_lines_witness :
  parseBacklogWiki (str "  # T" ++ [LF] ++ str "|a|  ")
  = parseBacklogWiki (str "# T  " ++ [LF] ++ str " |a|")
  /\ parseBacklogWiki (str "# T" ++ [13%N; LF] ++ str "|a|")
     = parseBacklogWiki (str "# T" ++ [LF] ++ str "|a|").
Proof.
  split.
  - exact (proj1 converter_reads_trimmed_lines
                 (str "  # T" ++ [LF] ++ str "|a|  ")
                 (str "# T  " ++ [LF] ++ str " |a|") eq_refl).
  - apply (proj2 converter_reads_trimmed_lines [str "# T"; str "|a|"]);
      [discriminate|reflexivity].
Defined.

(* ================================================================= *)
(** ** A fence on one line, through the whole converter *)

Lemma LF_free_free_of (s : jsstring) : LF_free s = free_of LF s.
Proof.
  unfold LF_free, free_of. induction s as [|c s IH]; [reflexivity|].
  cbn [forallb]. now rewrite IH, N.eqb_sym.
Qed.

Lemma free_of_sub (c : code_unit) (s t : jsstring) :
  (forall x, In x t -> In x s) -> free_of c s = true -> free_of c t = true.
Proof.
  unfold free_of. rewrite !forallb_forall. auto.
Qed.

Lemma in_drop_while (p : code_unit -> bool) (s : jsstring) (x : code_unit) :
  In x (JS.drop_while p s) -> In x s.
Proof.
  induction s as [|c s IH]; [auto|].
  cbn [JS.drop_while]. destruct (p c); [|auto].
  intros H. right. now apply IH.
Qed.

Lemma in_trim (s : jsstring) (x : code_unit) : In x (JS.trim s) -> In x s.
Proof.
  unfold JS.trim, JS.trimEnd, JS.trimStart. intros H.
  apply in_rev, in_drop_while, in_rev, in_drop_while in H. exact H.
Qed.

Lemma free_of_trim (c : code_unit) (s : jsstring) :
  free_of c s = true -> free_of c (JS.trim s) = true.
Proof. apply free_of_sub. intros x. apply in_trim. Qed.

Lemma word_free (c : code_unit) (l : jsstring) :
  JS.is_word c = false -> forallb JS.is_word l = true -> free_of c l = true.
Proof.
  intros Hc. unfold free_of. rewrite !forallb_forall. intros H x Hx.
  specialize (H x Hx). apply negb_true_iff.
  destruct (N.eqb x c) eqn:E; [|reflexivity].
  apply N.eqb_eq in E. subst x. congruence.
Qed.

Lemma language_class_free (c : code_unit) (language : option jsstring) :
  JS.is_word c = false ->
  is_language language = true ->
  free_of c (language_class language) = true.
Proof.
  intros Hc. destruct language as [l|]; [|intros _].
  - cbn [is_language language_class]. intros H.
    apply andb_true_iff in H as [_ H]. now apply word_free.
  - cbn [language_class]. now apply word_free.
Qed.

(** Escaping brings in the code units of the entity names only. *)
Lemma entity_units (x y : code_unit) :
  In y (entity x) -> y = x \/ In y (str "&amp;nbsp;lt;gt;").
Proof.
  unfold entity.
  destruct (N.eqb x 38); [|destruct (N.eqb x 160);
    [|destruct (N.eqb x 60); [|destruct (N.eqb x 62)]]];
    intros H; try (right; vm_compute in H |- *; tauto).
  left. destruct H as [H|[]]. now symmetry.
Qed.

Lemma entity_free (c x : code_unit) :
  free_of c (str "&amp;nbsp;lt;gt;") = true ->
  N.eqb x c = false ->
  free_of c (entity x) = true.
Proof.
  unfold free_of. rewrite !forallb_forall. intros Hc Hx y Hy.
  apply entity_units in Hy as [->|Hy]; [now rewrite Hx|]. now apply Hc.
Qed.

Lemma escapeHtml_free (c : code_unit) (s : jsstring) :
  free_of c (str "&amp;nbsp;lt;gt;") = true ->
  free_of c s = true ->
  free_of c (escapeHtml s) = true.
Proof.
  intros Hc. rewrite escapeHtml_flat_map.
  induction s as [|x s IH]; intros H; [reflexivity|].
  unfold free_of in H. cbn [forallb] in H.
  apply andb_true_iff in H as [Hx Hs]. apply negb_true_iff in Hx.
  cbn [flat_map]. rewrite free_of_app, (@entity_free c x Hc Hx).
  now apply IH.
Qed.

Lemma split_single_line (s : jsstring) :
  LF_free s = true -> JS.split s [LF] = [s].
Proof.
  intros H. unfold JS.split.
  pose proof (split_from_LF_free_prefix s [] [] H) as E.
  rewrite app_nil_r in E. rewrite E. reflexivity.
Qed.

Lemma includes_free (c : code_unit) (p s : jsstring) :
  free_of c s = true -> includes s (c :: p) = false.
Proof.
  induction s as [|x s IH]; intros H; [reflexivity|].
  unfold free_of in H. cbn [forallb] in H.
  apply andb_true_iff in H as [Hx Hs]. apply negb_true_iff in Hx.
  rewrite includes_unfold. cbn [JS.is_prefix].
  rewrite N.eqb_sym, Hx. cbn [andb orb]. now apply IH.
Qed.

Lemma replace_bold_no_star (s : jsstring) :
  free_of 42%N s = true -> replace_bold s = s.
Proof.
  intros H. unfold replace_bold. apply replace_all_no_match.
  apply (@includes_free 42%N (str "*") s) in H. revert H.
  apply has_match_needs. intros t [inner len] Hm.
  apply boldPattern_sound in Hm as [_ [rest [-> _]]].
  unfold bold_span. rewrite <- app_assoc. apply (includes_app []).
Qed.

Section OneLineFence.

Variable language : option jsstring.
Variable code : jsstring.

Hypothesis language_ok : is_language language = true.
Hypothesis code_one_line : LF_free code = true.
Hypothesis code_no_star : free_of 42%N code = true.

Lemma fence_LF_free : LF_free (fence language code) = true.
Proof.
  unfold fence. rewrite !LF_free_app, code_one_line.
  replace (LF_free (language_part language)) with true; [reflexivity|].
  symmetry. destruct language as [l|]; [|reflexivity].
  cbn [language_part]. rewrite LF_free_app.
  change (LF_free (str ":")) with true. cbn [andb].
  rewrite LF_free_free_of.
  cbn [is_language] in language_ok.
  apply andb_true_iff in language_ok as [_ H].
  exact (@word_free LF l eq_refl H).
Qed.

Lemma fence_trimmed : JS.trim (fence language code) = fence language code.
Proof.
  apply trim_fixed. unfold no_outer_space, fence.
  apply andb_true_iff. split; [reflexivity|].
  rewrite !app_assoc, rev_app_distr. reflexivity.
Qed.

Lemma parseTable_fence :
  parseTable (fence language code) = Returned (fence language code).
Proof.
  rewrite parseTable_no_rows.
  - unfold trimmed_lines.
    rewrite (@split_single_line _ fence_LF_free). cbn [List.map JS.join].
    now rewrite fence_trimmed.
  - unfold all_lines.
    rewrite (@split_single_line _ fence_LF_free). cbn [forallb].
    rewrite fence_trimmed. reflexivity.
Qed.

Lemma block_free (c : code_unit) :
  JS.is_word c = false ->
  free_of c (str "<pre class=backlog-code-block><code=language-></code>")
  = true ->
  free_of c dq = true ->
  free_of c (str "&amp;nbsp;lt;gt;") = true ->
  free_of c code = true ->
  free_of c (emitted_block language code) = true.
Proof.
  intros Hw Hc Hq He Hcode. unfold emitted_block, code_block.
  rewrite !free_of_app, Hq.
  rewrite (@language_class_free c language Hw language_ok).
  rewrite (@escapeHtml_free c (JS.trim code) He (@free_of_trim c code Hcode)).
  unfold free_of in Hc |- *. rewrite forallb_forall in Hc.
  repeat match goal with
         | |- context [forallb ?f (str ?s)] =>
             replace (forallb f (str s)) with true
               by (symmetry; apply forallb_forall; intros y Hy; apply Hc;
                   vm_compute in Hy |- *; tauto)
         end.
  reflexivity.
Qed.

Lemma block_LF_free : LF_free (emitted_block language code) = true.
Proof.
  rewrite LF_free_free_of. apply block_free; try reflexivity.
  now rewrite <- LF_free_free_of.
Qed.

Lemma block_no_star : free_of 42%N (emitted_block language code) = true.
Proof. apply block_free; try reflexivity. exact code_no_star. Qed.

Lemma block_trimmed :
  JS.trim (emitted_block language code) = emitted_block language code.
Proof.
  apply trim_fixed. unfold no_outer_space, emitted_block, code_block.
  apply andb_true_iff. split; [reflexivity|].
  rewrite !app_assoc, rev_app_distr. reflexivity.
Qed.

Lemma markdown_line_block :
  markdown_line (emitted_block language code) = emitted_block language code.
Proof.
  unfold markdown_line. cbv zeta.
  rewrite (@replace_bold_no_star _ block_no_star), block_trimmed.
  reflexivity.
Qed.

Lemma parseBasicMarkdown_block :
  parseBasicMarkdown (emitted_block language code)
  = emitted_block language code.
Proof.
  unfold parseBasicMarkdown.
  rewrite (@split_single_line _ block_LF_free).
  cbn [List.map JS.join]. apply markdown_line_block.
Qed.

Lemma parseBacklogWiki_one_line_fence :
  shortest_body (str "{/code}") code [] = true ->
  parseBacklogWiki (fence language code)
  = Returned (emitted_block language code).
Proof.
  intros Hshort. unfold parseBacklogWiki.
  rewrite parseTable_fence. cbn [bind].
  rewrite (@parseCodeBlock_single_fence language code language_ok Hshort).
  rewrite (@parseInlineCode_amp_guarded _
             (@code_block_amp_guarded language (JS.trim code) language_ok)).
  fold (emitted_block language code). now rewrite parseBasicMarkdown_block.
Qed.

End OneLineFence.

(** X18: a text that is one fence on one line, [{code}body{/code}] or
    [{code:lang}body{/code}] with a body that holds no line feed and no
    asterisk, goes through the four stages of the converter as exactly
    the [pre]/[code] block of the code-block stage: the table stage, the
    inline-code stage and the last stage leave it as it is. *)
Theorem one_line_fence_through_converter (language : option jsstring)
        (code : jsstring) :
  is_language language = true ->
  LF_free code = true ->
  free_of 42%N code = true ->
  shortest_body (str "{/code}") code [] = true ->
  parseBacklogWiki (fence language code)
  = Returned (code_block (language_class language)
                         (escapeHtml (JS.trim code))).
Proof.
  intros Hlang Hline Hstar Hshort.
  exact (@parseBacklogWiki_one_line_fence language code
           Hlang Hline Hstar Hshort).
Qed.

Lemma one_line_fence_through_converter_witness :
  parseBacklogWiki (str "{code:sql} a<b & " ++ dq ++ str "c" ++ dq
                    ++ str "; &code(x); {/code}")
  = Returned (code_block (str "sql")
                (str "a&lt;b &amp; " ++ dq ++ str "c" ++ dq
                 ++ str "; &amp;code(x);")).
Proof.
  exact (@one_line_fence_through_converter (Some (str "sql"))
           (str " a<b & " ++ dq ++ str "c" ++ dq ++ str "; &code(x); ")
           eq_refl eq_refl eq_refl eq_refl).
Defined.

(* ================================================================= *)
(** ** Fenced code: the stage and the converter *)

(** C7, as the claim states it, fails: the text of each of these two
    fences is a match of the pattern, and the converter does not return
    the block around the escaped, trimmed body: the last stage wraps the
    second line of the two-line body and replaces the bold span of the
    other. *)
Lemma fence_body_altered_by_last_stage :
  (Regex.codeBlockPattern two_line_fence
   = Some ((None, [LF] ++ str "a" ++ [LF] ++ str "b" ++ [LF]), 18)
   /\ JS.trim ([LF] ++ str "a" ++ [LF] ++ str "b" ++ [LF])
      = str "a" ++ [LF] ++ str "b"
   /\ parseBacklogWiki two_line_fence
      <> Returned (str "<pre class=" ++ dq ++ str "backlog-code-block" ++ dq
                  ++ str "><code class=" ++ dq ++ str "language-"
                  ++ str "text"
                  ++ dq ++ str ">" ++ escapeHtml (str "a" ++ [LF] ++ str "b") ++ str "</code></pre>"))
  /\ (Regex.codeBlockPattern bold_fence = Some ((None, str "**a**"), 18)
      /\ parseBacklogWiki bold_fence
         = Returned (str "<pre class=" ++ dq ++ str "backlog-code-block" ++ dq
                     ++ str "><code class=" ++ dq ++ str "language-"
                     ++ str "text"
                     ++ dq ++ str ">" ++ str "<strong>a</strong>" ++ str "</code></pre>")
      /\ parseBacklogWiki bold_fence
         <> Returned (str "<pre class=" ++ dq ++ str "backlog-code-block" ++ dq
                     ++ str "><code class=" ++ dq ++ str "language-"
                     ++ str "text"
                     ++ dq ++ str ">" ++ escapeHtml (str "**a**") ++ str "</code></pre>")).
Proof.
  split; (split; [reflexivity|]; split; [reflexivity|]);
    vm_compute; discriminate.
Qed.

(** C7 (amended): for every fenced-code match [{code}body{/code}] or
    [{code:lang}body{/code}] (non-greedy, possibly of several lines) the
    code-block stage emits the block
    [<pre class="backlog-code-block"><code class="language-{lang}">],
    [lang] being the literal [text] when omitted, around the body
    HTML-escaped after trimming, and goes on behind the fence; the
    converter returns exactly that block for a text that is one fence on
    one line with no asterisk in its body, so for
    ["{code:js}x=1{/code}"] the block of class [language-js] and body
    [x=1], and for ["{code}a<b{/code}"] the block with [a&lt;b]. *)
Theorem fenced_code_emits_block :
  (forall s language code len,
      Regex.codeBlockPattern s = Some ((language, code), len) ->
      is_language language = true
      /\ exists rest,
          s = fence language code ++ rest
          /\ len = List.length (fence language code)
          /\ shortest_body (str "{/code}") code rest = true)
  /\ (forall language code rest,
         is_language language = true ->
         shortest_body (str "{/code}") code rest = true ->
         Regex.codeBlockPattern (fence language code ++ rest)
         = Some ((language, code), List.length (fence language code)))
  /\ (forall pre language code rest,
         is_language language = true ->
         shortest_body (str "{/code}") code rest = true ->
         unmatched_prefix Regex.codeBlockPattern pre (fence language code ++ rest)
         = true ->
         parseCodeBlock (pre ++ fence language code ++ rest)
         = pre
           ++ (str "<pre class=" ++ dq ++ str "backlog-code-block" ++ dq
              ++ str "><code class=" ++ dq ++ str "language-"
              ++ match language with
                 | Some lang => lang
                 | None => str "text"
                 end
              ++ dq ++ str ">" ++ escapeHtml (JS.trim code) ++ str "</code></pre>")
           ++ parseCodeBlock rest)
  /\ (forall language code,
         is_language language = true ->
         LF_free code = true ->
         free_of 42%N code = true ->
         shortest_body (str "{/code}") code [] = true ->
         parseBacklogWiki (fence language code)
         = Returned (str "<pre class=" ++ dq ++ str "backlog-code-block" ++ dq
                    ++ str "><code class=" ++ dq ++ str "language-"
                    ++ match language with
                       | Some lang => lang
                       | None => str "text"
                       end
                    ++ dq ++ str ">" ++ escapeHtml (JS.trim code) ++ str "</code></pre>"))
  /\ parseBacklogWiki js_fence
     = Returned (str "<pre class=" ++ dq ++ str "backlog-code-block" ++ dq
                 ++ str "><code class=" ++ dq ++ str "language-js" ++ dq
                 ++ str ">x=1</code></pre>")
  /\ parseBacklogWiki plain_fence
     = Returned (str "<pre class=" ++ dq ++ str "backlog-code-block" ++ dq
                 ++ str "><code class=" ++ dq ++ str "language-text" ++ dq
                 ++ str ">a&lt;b</code></pre>").
Proof.
  split; [exact codeBlockPattern_sound|].
  split; [exact codeBlockPattern_complete|].
  split; [|split; [|split; reflexivity]].
  - intros pre language code rest Hlang Hshort Hpre.
    rewrite parseCodeBlock_fence by assumption.
    unfold code_block. destruct language as [lang|];
      cbn [language_class]; now repeat rewrite <- app_assoc.
  - intros language code Hlang Hline Hstar Hshort.
    rewrite (@parseBacklogWiki_one_line_fence language code
               Hlang Hline Hstar Hshort).
    unfold emitted_block, code_block. destruct language as [lang|];
      cbn [language_class]; now repeat rewrite <- app_assoc.
Qed.

Lemma fenced_code_emits_block_witness :
  (is_language (Some (str "js")) = true
   /\ exists rest,
       js_fence = fence (Some (str "js")) (str "x=1") ++ rest
       /\ 19 = List.length (fence (Some (str "js")) (str "x=1"))
       /\ shortest_body (str "{/code}") (str "x=1") rest = true)
  /\ Regex.codeBlockPattern (fence None (str " a" ++ [LF] ++ str "b ") ++ str "!")
     = Some ((None, str " a" ++ [LF] ++ str "b "), 18)
  /\ parseCodeBlock (str "see " ++ fence None (str " a" ++ [LF] ++ str "b ")
                         ++ str "!")
     = str "see "
       ++ str "<pre class=" ++ dq ++ str "backlog-code-block" ++ dq
       ++ str "><code class=" ++ dq ++ str "language-" ++ str "text" ++ dq
       ++ str ">" ++ (str "a" ++ [LF] ++ str "b") ++ str "</code></pre>"
       ++ str "!"
  /\ parseBacklogWiki (fence (Some (str "sql")) (str " a<b "))
     = Returned (str "<pre class=" ++ dq ++ str "backlog-code-block" ++ dq
                 ++ str "><code class=" ++ dq ++ str "language-" ++ str "sql"
                 ++ dq ++ str ">" ++ str "a&lt;b" ++ str "</code></pre>").
Proof.
  split; [|split; [|split]].
  - exact (proj1 fenced_code_emits_block js_fence
                 (Some (str "js")) (str "x=1") 19 eq_refl).
  - exact (proj1 (proj2 fenced_code_emits_block)
                 None (str " a" ++ [LF] ++ str "b ") (str "!")
                 eq_refl eq_refl).
  - exact (proj1 (proj2 (proj2 fenced_code_emits_block))
                 (str "see ") None (str " a" ++ [LF] ++ str "b ") (str "!")
                 eq_refl eq_refl eq_refl).
  - exact (proj1 (proj2 (proj2 (proj2 fenced_code_emits_block)))
                 (Some (str "sql")) (str " a<b ")
                 eq_refl eq_refl eq_refl eq_refl).
Defined.

(* ================================================================= *)
(** ** Totality: the runs of the converter as a program *)

Lemma firstn_length_app (A : Type) (a b : list A) :
  firstn (List.length a) (a ++ b) = a.
Proof. induction a as [|x a IH]; [reflexivity|]. cbn. now rewrite IH. Qed.

Lemma extends_refl (w : world) : extends w w.
Proof.
  split; [reflexivity|].
  rewrite <- (app_nil_r (nodes w)) at 2. apply firstn_length_app.
Qed.

Lemma extends_trans (w1 w2 w3 : world) :
  extends w1 w2 -> extends w2 w3 -> extends w1 w3.
Proof.
  intros [Hp1 Hn1] [Hp2 Hn2]. split; [congruence|].
  rewrite <- (firstn_skipn (List.length (nodes w2)) (nodes w3)), Hn2.
  rewrite <- (firstn_skipn (List.length (nodes w1)) (nodes w2)), Hn1.
  rewrite <- app_assoc. apply firstn_length_app.
Qed.

Lemma runs_to_ret (A : Type) (a : A) (w : world) : runs_to (ret a) w a.
Proof. exists w. split; [reflexivity|apply extends_refl]. Qed.

Lemma runs_to_and_then (A B : Type) (p : prog A) (k : A -> prog B)
      (w : world) (a : A) (b : B) :
  runs_to p w a ->
  (forall w', runs_to (k a) w' b) ->
  runs_to (and_then p k) w b.
Proof.
  intros [w1 [H1 E1]] Hk. destruct (Hk w1) as [w2 [H2 E2]].
  exists w2. split; [|now apply extends_trans with w1].
  unfold and_then. now rewrite H1.
Qed.

Lemma update_nth_last (A : Type) (l : list A) (x y : A) :
  update_nth (l ++ [x]) (List.length l) y = l ++ [y].
Proof. induction l as [|z l IH]; [reflexivity|]. cbn. now rewrite IH. Qed.

(** [escapeHtml] creates one node, attaches it nowhere and returns the
    text that the serialisation of its content gives. *)
Lemma escapeHtml_run_returns (text : jsstring) (w : world) :
  escapeHtml_run text w
  = Normal (escapeHtml text,
            mkWorld (nodes w
                     ++ [DOM.set_textContent (DOM.createElement (str "div")) text])
                    (page w)).
Proof.
  unfold escapeHtml_run, and_then.
  unfold document_createElement at 1. cbv iota beta.
  unfold assign_textContent. cbn [nodes page].
  rewrite nth_error_app2 by lia. rewrite Nat.sub_diag. cbn [nth_error].
  rewrite update_nth_last.
  unfold read_innerHTML. cbn [nodes page].
  rewrite nth_error_app2 by lia. rewrite Nat.sub_diag. cbn [nth_error].
  reflexivity.
Qed.

Lemma escapeHtml_runs_to (text : jsstring) (w : world) :
  runs_to (escapeHtml_run text) w (escapeHtml text).
Proof.
  eexists. split; [apply escapeHtml_run_returns|].
  split; [reflexivity|]. cbn [nodes]. apply firstn_length_app.
Qed.

Section RegExpReplaceFacts.

Variable C : Type.
Variable exec : jsstring -> option (C * nat).
Variable f : C -> jsstring.
Variable replacer : C -> prog jsstring.

(** The pattern does not match the empty text, a match is not empty and
    lies inside the subject, and the callback returns. *)
Hypothesis exec_nil : exec [] = None.
Hypothesis exec_length :
  forall s caps len, exec s = Some (caps, len) -> 1 <= len <= List.length s.
Hypothesis replacer_returns :
  forall caps w, runs_to (replacer caps) w (f caps).

Lemma first_match_none (rest : jsstring) :
  first_match exec rest = None -> replace_all exec f rest = rest.
Proof.
  induction rest as [|c rest IH]; [reflexivity|].
  cbn [first_match]. destruct (exec (c :: rest)) as [[caps len]|] eqn:E;
    [discriminate|].
  destruct (first_match exec rest) as [[[sk caps] len]|]; [discriminate|].
  intros _. unfold replace_all. cbn [replace_from]. rewrite E.
  f_equal. now apply IH.
Qed.

Lemma first_match_some (rest skipped : jsstring) (caps : C) (len : nat) :
  first_match exec rest = Some (skipped, caps, len) ->
  exists rest2,
    rest = skipped ++ rest2
    /\ exec rest2 = Some (caps, len)
    /\ unmatched_prefix exec skipped rest2 = true.
Proof.
  revert skipped; induction rest as [|c rest IH]; intros skipped.
  - cbn [first_match]. rewrite exec_nil. discriminate.
  - cbn [first_match]. destruct (exec (c :: rest)) as [[caps0 len0]|] eqn:E.
    + intros H. injection H as <- <- <-. exists (c :: rest).
      split; [reflexivity|]. split; [exact E|reflexivity].
    + destruct (first_match exec rest) as [[[sk caps0] len0]|] eqn:F;
        [|discriminate].
      intros H. injection H as <- <- <-.
      destruct (IH sk eq_refl) as [rest2 [Hr [He Hu]]].
      exists rest2. split; [cbn [app]; now rewrite <- Hr|].
      split; [exact He|].
      cbn [unmatched_prefix]. cbn [app]. rewrite <- Hr, E. exact Hu.
Qed.

Lemma substring_range_middle (pre mid post : jsstring) :
  substring_range (pre ++ mid ++ post) (List.length pre)
                  (List.length pre + List.length mid) = mid.
Proof.
  unfold substring_range. rewrite !length_app.
  rewrite (Nat.min_l (List.length pre)) by lia.
  rewrite (Nat.min_l (List.length pre + List.length mid)) by lia.
  rewrite Nat.min_l, Nat.max_r by lia.
  rewrite skipn_length_app.
  replace (List.length pre + List.length mid - List.length pre)
    with (List.length mid) by lia.
  apply firstn_length_app.
Qed.

(** The two loops of [replace] from a position on: either the fuel does
    not reach the end of the subject, or the matches are gathered and the
    substitution returns what the scan of the embedding returns. *)
Lemma collect_then_substitute (fuel : nat) :
  forall (pre rest : jsstring) (w : world),
    (collect_matches exec fuel (pre ++ rest) (List.length pre) w = Diverge
     /\ fuel <= List.length rest)
    \/ exists results,
        collect_matches exec fuel (pre ++ rest) (List.length pre) w
        = Normal (results, w)
        /\ forall acc w0,
            runs_to (substitute replacer (pre ++ rest) results
                                (List.length pre) acc) w0
                    (acc ++ replace_all exec f rest).
Proof.
  induction fuel as [|fuel IH]; intros pre rest w.
  - left. split; [reflexivity|lia].
  - cbn [collect_matches]. unfold regexp_exec.
    assert (Hlt : (List.length (pre ++ rest) <? List.length pre) = false).
    { apply Nat.ltb_ge. rewrite length_app. lia. }
    rewrite Hlt, skipn_length_app.
    destruct (first_match exec rest) as [[[skipped caps] len]|] eqn:E.
    + destruct (@first_match_some _ _ _ _ E) as [rest2 [Hr [He Hu]]].
      pose proof (@exec_length _ _ _ He) as Hl.
      assert (Hz : (len =? 0) = false) by (apply Nat.eqb_neq; lia).
      rewrite Hz.
      assert (Hs : pre ++ rest
                   = (pre ++ skipped ++ firstn len rest2) ++ skipn len rest2).
      { rewrite Hr, <- !app_assoc. now rewrite firstn_skipn. }
      assert (Hn : List.length pre + List.length skipped + len
                   = List.length (pre ++ skipped ++ firstn len rest2)).
      { rewrite !length_app, length_firstn. lia. }
      assert (Hrep : replace_all exec f rest
                     = skipped ++ f caps ++ replace_all exec f (skipn len rest2)).
      { rewrite Hr, (@replace_all_unmatched_prefix _ exec f _ _ Hu).
        f_equal. destruct len as [|n]; [lia|].
        apply replace_all_match; [|exact He].
        intros ->. cbn in Hl. lia. }
      rewrite Hs, Hn.
      destruct (IH (pre ++ skipped ++ firstn len rest2) (skipn len rest2) w)
        as [[Hd Hf]|[results [Hc Hsub]]].
      * left. unfold and_then. rewrite Hd. split; [reflexivity|].
        rewrite Hr, length_app. rewrite length_skipn in Hf. lia.
      * right. eexists. unfold and_then at 1. rewrite Hc. cbn [ret].
        split; [reflexivity|]. intros acc w0.
        cbn [substitute].
        apply runs_to_and_then with (a := f caps);
          [apply replacer_returns|]. intros w1.
        assert (Hle : (List.length pre <=? List.length pre + List.length skipped)
                      = true) by (apply Nat.leb_le; lia).
        rewrite Hle, Hn.
        rewrite <- Hs at 2. rewrite Hr at 1.
        rewrite substring_range_middle.
        rewrite Hrep.
        replace (acc ++ skipped ++ f caps
                 ++ replace_all exec f (skipn len rest2))
          with ((acc ++ skipped ++ f caps)
                ++ replace_all exec f (skipn len rest2))
          by now rewrite <- !app_assoc.
        apply Hsub.
    + right. exists []. split; [reflexivity|]. intros acc w0.
      cbn [substitute]. unfold JS.substring. rewrite skipn_length_app.
      rewrite (@first_match_none _ E). apply runs_to_ret.
Qed.

Lemma regexp_replace_run (fuel : nat) (s : jsstring) (w : world) :
  (regexp_replace exec replacer fuel s w = Diverge
   /\ fuel <= List.length s)
  \/ runs_to (regexp_replace exec replacer fuel s) w (replace_all exec f s).
Proof.
  unfold regexp_replace.
  destruct (@collect_then_substitute fuel [] s w) as [[Hd Hf]|[results [Hc Hsub]]];
    cbn [app List.length] in *.
  - left. unfold and_then. rewrite Hd. now split.
  - right. destruct (Hsub [] w) as [w' [H E]]. exists w'. split; [|exact E].
    unfold and_then. rewrite Hc. exact H.
Qed.

End RegExpReplaceFacts.

(** The three patterns of the parser meet the conditions. *)
Lemma codeBlockPattern_length (s : jsstring) (caps : option jsstring * jsstring)
      (len : nat) :
  Regex.codeBlockPattern s = Some (caps, len) -> 1 <= len <= List.length s.
Proof.
  destruct caps as [language code]. intros H.
  apply codeBlockPattern_sound in H as [_ [rest [Hs [Hl _]]]].
  subst s len. unfold fence. rewrite !length_app. cbn [List.length str List.map
    list_ascii_of_string]. lia.
Qed.

Lemma inlineCodePattern_length (s code : jsstring) (len : nat) :
  Regex.inlineCodePattern s = Some (code, len) -> 1 <= len <= List.length s.
Proof.
  intros H. apply inlineCodePattern_sound in H as [_ [rest [Hs Hl]]].
  subst s len. unfold inline_span. rewrite !length_app. cbn [List.length str
    List.map list_ascii_of_string]. lia.
Qed.

Lemma boldPattern_length (s inner : jsstring) (len : nat) :
  Regex.boldPattern s = Some (inner, len) -> 1 <= len <= List.length s.
Proof.
  intros H. apply boldPattern_sound in H as [_ [rest [Hs [Hl _]]]].
  subst s len. unfold bold_span. rewrite !length_app. cbn [List.length str
    List.map list_ascii_of_string]. lia.
Qed.

Lemma codeBlock_callback_returns (caps : option jsstring * jsstring) (w : world) :
  runs_to (codeBlock_callback caps) w (codeBlock_replacer caps).
Proof.
  destruct caps as [language code]. unfold codeBlock_callback, codeBlock_replacer.
  apply runs_to_and_then with (a := escapeHtml (JS.trim code));
    [apply escapeHtml_runs_to|]. intros w'. apply runs_to_ret.
Qed.

Lemma inlineCode_callback_returns (code : jsstring) (w : world) :
  runs_to (inlineCode_callback code) w (inlineCode_replacer code).
Proof.
  unfold inlineCode_callback, inlineCode_replacer.
  apply runs_to_and_then with (a := escapeHtml code);
    [apply escapeHtml_runs_to|]. intros w'. apply runs_to_ret.
Qed.

Lemma parseCodeBlock_run_cases (fuel : nat) (text : jsstring) (w : world) :
  (parseCodeBlock_run fuel text w = Diverge /\ fuel <= List.length text)
  \/ runs_to (parseCodeBlock_run fuel text) w (parseCodeBlock text).
Proof.
  apply regexp_replace_run;
    [reflexivity|apply codeBlockPattern_length|apply codeBlock_callback_returns].
Qed.

Lemma parseInlineCode_run_cases (fuel : nat) (text : jsstring) (w : world) :
  (parseInlineCode_run fuel text w = Diverge /\ fuel <= List.length text)
  \/ runs_to (parseInlineCode_run fuel text) w (parseInlineCode text).
Proof.
  apply regexp_replace_run;
    [reflexivity|apply inlineCodePattern_length|apply inlineCode_callback_returns].
Qed.

(** The loop of the table stage reads inside the array only. *)
Lemma parseTable_for_cases (fuel : nat) :
  forall (pre rest : list jsstring) (st : table_state) (w : world),
    (parseTable_for fuel (pre ++ rest) (List.length pre) st w = Diverge
     /\ fuel <= List.length rest)
    \/ parseTable_for fuel (pre ++ rest) (List.length pre) st w
       = Normal (table_run rest st, w).
Proof.
  induction fuel as [|fuel IH]; intros pre rest st w.
  - left. split; [reflexivity|lia].
  - cbn [parseTable_for]. destruct rest as [|l rest].
    + right. rewrite app_nil_r, Nat.ltb_irrefl. reflexivity.
    + assert (Hlt : (List.length pre <? List.length (pre ++ l :: rest)) = true).
      { apply Nat.ltb_lt. rewrite length_app. cbn [List.length]. lia. }
      rewrite Hlt, nth_error_app2 by lia. rewrite Nat.sub_diag. cbn [nth_error].
      specialize (IH (pre ++ [l]) rest (table_body (JS.trim l) st) w).
      rewrite <- app_assoc, length_app in IH. cbn [app List.length] in IH.
      rewrite Nat.add_1_r in IH.
      destruct IH as [[Hd Hf]|Hn].
      * left. split; [exact Hd|cbn [List.length]; lia].
      * right. exact Hn.
Qed.

Lemma parseTable_run_cases (fuel : nat) (text : jsstring) (w : world) :
  (parseTable_run fuel text w = Diverge
   /\ fuel <= List.length (JS.split text [LF]))
  \/ exists table,
      parseTable text = Returned table
      /\ parseTable_run fuel text w = Normal (table, w).
Proof.
  unfold parseTable_run, and_then.
  destruct (@parseTable_for_cases fuel [] (JS.split text [LF]) (mkTable false []) w)
    as [[Hd Hf]|Hn]; cbn [app List.length] in *.
  - left. rewrite Hd. now split.
  - right. eexists. split; [|rewrite Hn; reflexivity].
    unfold parseTable. now rewrite parseTable_result_run.
Qed.

Lemma markdown_line_run_cases (fuel : nat) (line : jsstring) (w : world) :
  (markdown_line_run fuel line w = Diverge /\ fuel <= List.length line)
  \/ runs_to (markdown_line_run fuel line) w (markdown_line line).
Proof.
  unfold markdown_line_run.
  destruct (@regexp_replace_run _ Regex.boldPattern bold_replacer
              (fun inner => ret (bold_replacer inner)) eq_refl
              boldPattern_length (fun caps w => runs_to_ret (bold_replacer caps) w)
              fuel line w)
    as [[Hd Hf]|Hn].
  - left. unfold and_then. rewrite Hd. now split.
  - right. apply runs_to_and_then with (a := replace_bold line); [exact Hn|].
    intros w'. unfold markdown_line.
    repeat match goal with
           | |- context [if ?b then _ else _] => destruct b
           end; apply runs_to_ret.
Qed.

(** The loop of the last stage: it stops short when the fuel does not
    cover the lines left or the fuel inside does not cover one of them. *)
Lemma parseBasicMarkdown_for_cases (fuel inner : nat) :
  forall (pre rest : list jsstring) (acc : list jsstring) (w : world),
    (parseBasicMarkdown_for fuel inner (pre ++ rest) (List.length pre) acc w
     = Diverge
     /\ (fuel <= List.length rest
         \/ exists line, In line rest /\ inner <= List.length line))
    \/ runs_to (parseBasicMarkdown_for fuel inner (pre ++ rest)
                                       (List.length pre) acc)
               w (acc ++ List.map markdown_line rest).
Proof.
  induction fuel as [|fuel IH]; intros pre rest acc w.
  - left. split; [reflexivity|left; lia].
  - cbn [parseBasicMarkdown_for]. destruct rest as [|l rest].
    + right. rewrite app_nil_r.
      assert (Hn : nth_error pre (List.length pre) = None)
        by (apply nth_error_None; lia).
      rewrite Hn. cbn [List.map]. rewrite app_nil_r. apply runs_to_ret.
    + rewrite nth_error_app2 by lia. rewrite Nat.sub_diag. cbn [nth_error].
      destruct (markdown_line_run_cases inner l w) as [[Hd Hf]|Hl].
      * left. unfold and_then. rewrite Hd. split; [reflexivity|].
        right. exists l. split; [now left|exact Hf].
      * destruct Hl as [w1 [H1 E1]].
        specialize (IH (pre ++ [l]) rest (acc ++ [markdown_line l]) w1).
        rewrite <- app_assoc, length_app in IH. cbn [app List.length] in IH.
        rewrite Nat.add_1_r in IH.
        unfold and_then at 1. rewrite H1. cbv beta iota.
        destruct IH as [[Hd Hf]|[w2 [H2 E2]]].
        -- left. split; [exact Hd|].
           destruct Hf as [Hf|[line [Hin Hlen]]].
           ++ left. cbn [List.length]. lia.
           ++ right. exists line. split; [now right|exact Hlen].
        -- right. exists w2. split; [|now apply extends_trans with w1].
           unfold and_then. rewrite H1, H2. cbn [List.map].
           now rewrite <- app_assoc.
Qed.

Lemma parseBasicMarkdown_run_cases (fuel : nat) (text : jsstring) (w : world) :
  (parseBasicMarkdown_run fuel text w = Diverge
   /\ fuel <= List.length (JS.split text [LF])
              + list_max (List.map (@List.length code_unit) (JS.split text [LF])))
  \/ runs_to (parseBasicMarkdown_run fuel text) w (parseBasicMarkdown text).
Proof.
  unfold parseBasicMarkdown_run.
  destruct (@parseBasicMarkdown_for_cases fuel fuel [] (JS.split text [LF]) [] w)
    as [[Hd Hf]|Hn]; cbn [app List.length] in *.
  - left. unfold and_then. rewrite Hd. split; [reflexivity|].
    destruct Hf as [Hf|[line [Hin Hlen]]]; [lia|].
    assert (Hmax : List.length line
                   <= list_max (List.map (@List.length code_unit)
                                         (JS.split text [LF]))).
    { pose proof (proj1 (list_max_le (List.map (@List.length code_unit)
                                               (JS.split text [LF])) _)
                        (Nat.le_refl _)) as Hall.
      rewrite Forall_forall in Hall. apply Hall. now apply in_map. }
    lia.
  - right. apply runs_to_and_then with (a := List.map markdown_line (JS.split text [LF]));
      [exact Hn|]. intros w'. apply runs_to_ret.
Qed.

(** The converter as a program, stage after stage. *)
Lemma parseBacklogWiki_run_cases (text : jsstring) :
  exists enough table,
    parseTable text = Returned table
    /\ parseBacklogWiki text
       = Returned (parseBasicMarkdown (parseInlineCode (parseCodeBlock table)))
    /\ forall fuel w,
        (parseBacklogWiki_run fuel text w = Diverge /\ fuel < enough)
        \/ runs_to (parseBacklogWiki_run fuel text) w
                   (parseBasicMarkdown (parseInlineCode (parseCodeBlock table))).
Proof.
  destruct (parseBacklogWiki_stages text) as [table [Ht Hp]].
  exists (S (List.length (JS.split text [LF])
             + List.length table
             + List.length (parseCodeBlock table)
             + (List.length (JS.split (parseInlineCode (parseCodeBlock table)) [LF])
                + list_max (List.map (@List.length code_unit)
                     (JS.split (parseInlineCode (parseCodeBlock table)) [LF]))))).
  exists table. split; [exact Ht|]. split; [exact Hp|].
  intros fuel w. unfold parseBacklogWiki_run.
  destruct (parseTable_run_cases fuel text w) as [[Hd Hf]|[table' [Ht' Hn]]].
  { left. unfold and_then. rewrite Hd. split; [reflexivity|lia]. }
  assert (table' = table) by congruence. subst table'.
  unfold and_then at 1. rewrite Hn.
  destruct (parseCodeBlock_run_cases fuel table w) as [[Hd Hf]|[w1 [H1 E1]]].
  { left. unfold and_then. rewrite Hd. split; [reflexivity|lia]. }
  unfold and_then at 1. rewrite H1.
  destruct (parseInlineCode_run_cases fuel (parseCodeBlock table) w1)
    as [[Hd Hf]|[w2 [H2 E2]]].
  { left. unfold and_then. rewrite Hd. split; [reflexivity|lia]. }
  unfold and_then at 1. rewrite H2.
  destruct (parseBasicMarkdown_run_cases fuel
              (parseInlineCode (parseCodeBlock table)) w2)
    as [[Hd Hf]|[w3 [H3 E3]]].
  { left. split; [exact Hd|lia]. }
  right. exists w3. split.
  - unfold and_then. rewrite Hn, H1, H2. exact H3.
  - apply extends_trans with w2; [|exact E3].
    apply extends_trans with w1; assumption.
Qed.

(** The program can stop short and its DOM operations can raise: with too
    little fuel a run has not returned, and an assignment to the
    [textContent] of a node that does not exist raises. *)
Remark run_without_fuel_or_node :
  parseBacklogWiki_run 1 plain_fence (mkWorld [] []) = Diverge
  /\ assign_textContent 0 (str "x") (mkWorld [] []) = Throw TypeError.
Proof. split; reflexivity. Qed.

(** C9: the converter taken as a program, in which a loop may fail to
    end, a method called on [undefined] raises [TypeError], and
    [escapeHtml] creates DOM nodes in the world it runs in.  For every
    input text there is an amount of fuel from which on every run, in
    every world, returns: it returns the string that the four stages
    compute one after the other, it leaves the page and the nodes that
    existed as they were, and it only adds nodes.  No run raises, whatever
    the fuel and the world.  And the string returned depends on the text
    only: two runs on the same text, in different worlds, return equal
    strings. *)
Theorem parseBacklogWiki_total :
  (forall text,
      exists enough table html,
        parseTable text = Returned table
        /\ html = parseBasicMarkdown (parseInlineCode (parseCodeBlock table))
        /\ parseBacklogWiki text = Returned html
        /\ forall fuel w,
            enough <= fuel ->
            exists w',
              parseBacklogWiki_run fuel text w = Normal (html, w')
              /\ page w' = page w
              /\ firstn (List.length (nodes w)) (nodes w') = nodes w)
  /\ (forall text fuel w e, parseBacklogWiki_run fuel text w <> Throw e)
  /\ (forall text fuel1 fuel2 w1 w2 html1 html2 w1' w2',
         parseBacklogWiki_run fuel1 text w1 = Normal (html1, w1') ->
         parseBacklogWiki_run fuel2 text w2 = Normal (html2, w2') ->
         html1 = html2).
Proof.
  split; [|split].
  - intros text.
    destruct (parseBacklogWiki_run_cases text) as [enough [table [Ht [Hp Hrun]]]].
    exists enough, table. eexists. split; [exact Ht|]. split; [reflexivity|].
    split; [exact Hp|]. intros fuel w Hfuel.
    destruct (Hrun fuel w) as [[_ Hlt]|[w' [Hn [Hpage Hnodes]]]]; [lia|].
    exists w'. split; [exact Hn|]. split; [exact Hpage|exact Hnodes].
  - intros text fuel w e.
    destruct (parseBacklogWiki_run_cases text) as [enough [table [_ [_ Hrun]]]].
    destruct (Hrun fuel w) as [[Hd _]|[w' [Hn _]]]; congruence.
  - intros text fuel1 fuel2 w1 w2 html1 html2 w1' w2' H1 H2.
    destruct (parseBacklogWiki_run_cases text) as [enough [table [_ [_ Hrun]]]].
    destruct (Hrun fuel1 w1) as [[Hd _]|[w3 [Hn1 _]]]; [congruence|].
    destruct (Hrun fuel2 w2) as [[Hd _]|[w4 [Hn2 _]]]; [congruence|].
    congruence.
Qed.

Lemma parseBacklogWiki_total_witness :
  (exists enough table html,
      parseTable plain_fence = Returned table
      /\ html = parseBasicMarkdown (parseInlineCode (parseCodeBlock table))
      /\ parseBacklogWiki plain_fence = Returned html
      /\ forall fuel w,
          enough <= fuel ->
          exists w',
            parseBacklogWiki_run fuel plain_fence w = Normal (html, w')
            /\ page w' = page w
            /\ firstn (List.length (nodes w)) (nodes w') = nodes w)
  /\ str "<pre class=" ++ dq ++ str "backlog-code-block" ++ dq
     ++ str "><code class=" ++ dq ++ str "language-text" ++ dq
     ++ str ">a&lt;b</code></pre>"
     = code_block (str "text") (escapeHtml (str "a<b")).
Proof.
  split.
  - exact (proj1 parseBacklogWiki_total plain_fence).
  - exact (proj2 (proj2 parseBacklogWiki_total) plain_fence 100 200
                 (mkWorld [] []) page_with_paragraph _ _
                 (mkWorld [DOM.set_textContent (DOM.createElement (str "div"))
                                               (str "a<b")] [])
                 (mkWorld [DOM.set_textContent (DOM.createElement (str "p"))
                                               (str "x");
                           DOM.set_textContent (DOM.createElement (str "div"))
                                               (str "a<b")] [0])
                 eq_refl eq_refl).
Defined.
